(** * Opportuna: the polling bot of [main.py], embedded and verified

    The program polls JSON feeds of internship listings, derives a
    fingerprint for every listing, and for each fingerprint that is not yet
    in the SQLite table [seen] sends an e-mail, creates a Notion page and
    records the fingerprint.

    The embedding follows [main.py] function by function.  Python values are
    an inductive type, the effects (stdout, HTTP, SMTP, SQLite, sleeping) are
    threaded through a small state-and-exception monad that also returns the
    trace of the effects performed, and the services outside the process are
    oracles of a [world] record. *)

From Stdlib Require Import String Ascii List ZArith Bool Lia PrimFloat.
From Stdlib Require Import DecimalString.
Import ListNotations.

Set Warnings "-register-all".
Open Scope string_scope.

(** ** Python values *)

(** What [json.loads] can return: [None], booleans, integers, floats,
    strings, lists and dicts.  A dict keeps its insertion order, so it is an
    association list; its keys are distinct in every dict Python builds. *)
Inductive value : Type :=
| VNone
| VBool (b : bool)
| VInt (n : Z)
| VFloat (x : float)
| VStr (s : string)
| VList (xs : list value)
| VDict (kvs : list (string * value)).

Definition dict : Type := list (string * value).

(** A raw listing is one object of a feed's array. *)
Definition listing : Type := dict.

(** [bool(v)]: the truth value Python's [not], [and], [or] and [if] use. *)
Definition truthy (v : value) : bool :=
  match v with
  | VNone => false
  | VBool b => b
  | VInt n => negb (n =? 0)%Z
  | VFloat x => negb (PrimFloat.eqb x PrimFloat.zero)
  | VStr s => negb (s =? "")
  | VList xs => match xs with [] => false | _ :: _ => true end
  | VDict kvs => match kvs with [] => false | _ :: _ => true end
  end.

(** [isinstance(v, list)]. *)
Definition is_list (v : value) : bool :=
  match v with VList _ => true | _ => false end.

Fixpoint lookup (k : string) (d : dict) : option value :=
  match d with
  | [] => None
  | (k', v) :: d' => if k' =? k then Some v else lookup k d'
  end.

(** [d.get(k, default)]. *)
Definition get_default (d : dict) (k : string) (default : value) : value :=
  match lookup k d with Some v => v | None => default end.

(** [d.get(k)], whose default is [None]. *)
Definition get (d : dict) (k : string) : value := get_default d k VNone.

(** ** Exceptions *)

(** The exception classes the program's [except] clauses tell apart, each
    with the text [str(e)] gives. *)
Inductive exn : Type :=
| RequestException (msg : string)
| IntegrityError (msg : string)
| TypeError (msg : string)
| OtherException (msg : string)
| KeyboardInterrupt.

(** [isinstance(e, Exception)]: everything but [KeyboardInterrupt], which
    derives from [BaseException] only. *)
Definition is_Exception (e : exn) : bool :=
  match e with KeyboardInterrupt => false | _ => true end.

(** [isinstance(e, requests.exceptions.RequestException)]. *)
Definition is_RequestException (e : exn) : bool :=
  match e with RequestException _ => true | _ => false end.

Definition str_exn (e : exn) : string :=
  match e with
  | RequestException m | IntegrityError m | TypeError m | OtherException m => m
  | KeyboardInterrupt => ""
  end.

Inductive result (A : Type) : Type :=
| Ok (a : A)
| Raise (e : exn).
Arguments Ok {A} a.
Arguments Raise {A} e.

(** ** Builtins of the Python runtime *)

(** A [datetime] object, named by the microseconds of local time it counts
    from the start of year 1. *)
Definition datetime : Type := Z.

(** [repr] of a value, and [datetime.fromtimestamp] with the two renderings
    the program asks of its result, depend on the interpreter, the platform
    and the local time zone; they are taken as given.  [fromtimestamp]
    raises on a value that is not a number or is out of range. *)
Record runtime : Type := {
  repr : value -> string;
  fromtimestamp : value -> result datetime;
  (** [d.strftime("%b %d, %Y")] *)
  strftime : datetime -> string;
  (** [d.isoformat()] *)
  isoformat : datetime -> string
}.

(** What an f-string field [{v}] and [str(v)] give: a string is itself, any
    other value of these types is its [repr]. *)
Definition py_str (rt : runtime) (v : value) : string :=
  match v with
  | VStr s => s
  | _ => repr rt v
  end.

(** ** The fingerprint: [get_unique_id] *)

Definition get_unique_id (rt : runtime) (listing : listing) : option string :=
  let company := get listing "company_name" in
  let title := get listing "title" in
  let locations := get listing "locations" in
  if negb (truthy company) || negb (truthy title) || negb (truthy locations)
  then None
  else
    let location :=
      match locations with
      | VList (first :: _) => first
      | _ => VStr "N/A"
      end in
    Some (py_str rt company ++ "::" ++ py_str rt title ++ "::" ++ py_str rt location).

(** The listing passes the validation of [get_unique_id]. *)
Definition validated (l : listing) : bool :=
  truthy (get l "company_name") && truthy (get l "title")
  && truthy (get l "locations").

(** The first element of [locations], when it is a list that has one. *)
Definition first_location (l : listing) : option value :=
  match get l "locations" with
  | VList (first :: _) => Some first
  | _ => None
  end.

(** The (company, title, location) triple a fingerprint stands for. *)
Definition triple (l : listing) : value * value * option value :=
  (get l "company_name", get l "title", first_location l).

(** ** Effects *)

(** The table [seen (id TEXT PRIMARY KEY)] of [seen.db]: [rows] is what the
    open connection reads (its own uncommitted inserts included), [disk] is
    what has been committed, [None] while no table exists. *)
Record database : Type := {
  rows : list string;
  disk : option (list string)
}.

(** The process state: the database handle ([conn], [cur]) and the number
    of calls made so far to services outside the process, which indexes the
    answers of the [world]. *)
Record state : Type := {
  db : database;
  clock : nat
}.

(** An HTTP response as far as the program reads it. *)
Record response : Type := {
  status_code : Z;
  reason : string;
  text : string;
  (** what [resp.json()] does *)
  json : result (list listing)
}.

(** The message [send_email] builds. *)
Record email : Type := {
  Subject : string;
  From : value;
  To : value;
  payload : string
}.

(** The body of the page-creation request of [add_to_notion]. *)
Record notion_page : Type := {
  database_id : value;
  Company : value;
  Title : value;
  Term : value;
  Locations : string;
  Date_Posted : option string;
  Sponsorship : value
}.

(** Everything outside the process: its environment variables, and what
    each call to a service answers when it is the [n]-th such call. *)
Record world : Type := {
  getenv : string -> value;
  requests_get : nat -> string -> result response;
  smtp_send : nat -> value -> value -> email -> result unit;
  requests_post : nat -> string -> notion_page -> result response;
  (** whether Ctrl+C arrives during the [n]-th call, when it is a sleep *)
  sleep_interrupted : nat -> bool
}.

(** The effects a run performs, in the order it performs them. *)
Inductive event : Type :=
| Print (line : string)
| HttpGet (url : string)
| Smtp (msg : email)
| NotionPost (page : notion_page)
| SqlSelect (uid : string) (found : bool)
| SqlInsert (uid : string) (accepted : bool)
| SqlCommit
| SqlClose
| Sleep (seconds : Z).

(** A computation: from a state to a value or a raised exception, the state
    reached and the trace of effects. *)
Definition M (A : Type) : Type := state -> result A * state * list event.

Definition ret {A} (a : A) : M A := fun s => (Ok a, s, []).

Definition raise {A} (e : exn) : M A := fun s => (Raise e, s, []).

Definition lift {A} (r : result A) : M A := fun s => (r, s, []).

Definition bind {A B} (m : M A) (f : A -> M B) : M B :=
  fun s =>
    match m s with
    | (Ok a, s1, t1) => let '(r, s2, t2) := f a s1 in (r, s2, (t1 ++ t2)%list)
    | (Raise e, s1, t1) => (Raise e, s1, t1)
    end.

Notation "x <- m ;; k" := (bind m (fun x => k))
  (at level 61, m at next level, right associativity).
Notation "' pat <- m ;; k" := (bind m (fun x => match x with pat => k end))
  (at level 61, pat pattern, m at next level, right associativity).
Notation "m ;;; k" := (bind m (fun _ => k))
  (at level 61, right associativity).

(** [try: m  except ...: handler]: [handler e] is [None] for an exception no
    [except] clause matches, which then propagates. *)
Definition try_except {A} (m : M A) (handler : exn -> option (M A)) : M A :=
  fun s =>
    match m s with
    | (Ok a, s1, t1) => (Ok a, s1, t1)
    | (Raise e, s1, t1) =>
        match handler e with
        | Some h => let '(r, s2, t2) := h s1 in (r, s2, (t1 ++ t2)%list)
        | None => (Raise e, s1, t1)
        end
    end.

(** [for x in xs: body(x)]. *)
Fixpoint for_each {A} (xs : list A) (body : A -> M unit) : M unit :=
  match xs with
  | [] => ret tt
  | x :: xs' => body x ;;; for_each xs' body
  end.

Definition emit (ev : event) : M unit := fun s => (Ok tt, s, [ev]).

Definition print (line : string) : M unit := emit (Print line).

Definition tick (s : state) : state := {| db := db s; clock := S (clock s) |}.

(** *** SQLite *)

(** Lines 32-38: [sqlite3.connect], [CREATE TABLE IF NOT EXISTS seen] and
    [commit], from what is on disk when the process starts. *)
Definition startup (on_disk : option (list string)) : database :=
  let table := match on_disk with Some r => r | None => [] end in
  {| rows := table; disk := Some table |}.

Definition contains (uid : string) (d : database) : bool :=
  existsb (String.eqb uid) (rows d).

(** [cur.execute("SELECT 1 FROM seen WHERE id=?", (uid,))] and
    [cur.fetchone()], as the truth value of the row fetched. *)
Definition sql_select (uid : string) : M bool :=
  fun s => let found := contains uid (db s) in (Ok found, s, [SqlSelect uid found]).

(** [cur.execute("INSERT INTO seen(id) VALUES (?)", (uid,))]: the primary
    key rejects an [id] the table holds. *)
Definition sql_insert (uid : string) : M unit :=
  fun s =>
    if contains uid (db s)
    then (Raise (IntegrityError "UNIQUE constraint failed: seen.id"), s,
          [SqlInsert uid false])
    else (Ok tt,
          {| db := {| rows := (rows (db s) ++ [uid])%list; disk := disk (db s) |};
             clock := clock s |},
          [SqlInsert uid true]).

(** [conn.commit()]. *)
Definition sql_commit : M unit :=
  fun s =>
    (Ok tt,
     {| db := {| rows := rows (db s); disk := Some (rows (db s)) |};
        clock := clock s |},
     [SqlCommit]).

(** ** The program *)

(** The newline of the string literals. *)
Definition nl : string := String (ascii_of_nat 10) EmptyString.

Definition CHECK_INTERVAL_MINUTES : Z := 30.


Definition JSON_URLS : list string :=
  [ "https://raw.githubusercontent.com/vanshb03/Summer2026-Internships/refs/heads/dev/.github/scripts/listings.json";
    "https://raw.githubusercontent.com/SimplifyJobs/Summer2025-Internships/refs/heads/dev/.github/scripts/listings.json" ].

(** The elements of a list value. *)
Definition items (v : value) : list value :=
  match v with VList xs => xs | _ => [] end.

Fixpoint strings_of (xs : list value) : option (list string) :=
  match xs with
  | [] => Some []
  | VStr s :: xs' =>
      match strings_of xs' with Some ss => Some (s :: ss) | None => None end
  | _ :: _ => None
  end.

(** [type(v).__name__]. *)
Definition type_name (v : value) : string :=
  match v with
  | VNone => "NoneType"
  | VBool _ => "bool"
  | VInt _ => "int"
  | VFloat _ => "float"
  | VStr _ => "str"
  | VList _ => "list"
  | VDict _ => "dict"
  end.

(** The text of the [TypeError] of [str.join] for the items [xs], the first
    of which has the index [i]: it names the first item that is not a
    string. *)
Fixpoint join_error (i : nat) (xs : list value) : string :=
  match xs with
  | [] => ""
  | VStr _ :: xs' => join_error (S i) xs'
  | v :: _ =>
      "sequence item " ++ NilZero.string_of_uint (Nat.to_uint i)
      ++ ": expected str instance, " ++ type_name v ++ " found"
  end.

(** [sep.join(xs)], which raises [TypeError] on an element that is not a
    string. *)
Definition join (sep : string) (xs : list value) : result string :=
  match strings_of xs with
  | Some ss => Ok (String.concat sep ss)
  | None => Raise (TypeError (join_error 0 xs))
  end.

Definition rbind {A B} (r : result A) (f : A -> result B) : result B :=
  match r with Ok a => f a | Raise e => Raise e end.

(** ["; ".join(locations) if locations and isinstance(locations, list)
    else "N/A"], the display string of lines 148 and 224. *)
Definition location_str (l : listing) : result string :=
  let locations := get l "locations" in
  if truthy locations && is_list locations
  then join "; " (items locations)
  else Ok "N/A".

(** The term of lines 156-166 and 238-248: [terms] joined when it is a
    non-empty list, else [season] when truthy, else ["N/A"]. *)
Definition term_str (l : listing) : result value :=
  let terms := get_default l "terms" (VList []) in
  let season := get l "season" in
  if truthy terms && is_list terms
  then rbind (join ", " (items terms)) (fun s => Ok (VStr s))
  else if truthy season then Ok season
  else Ok (VStr "N/A").

Section Program.

Variable rt : runtime.
Variable w : world.

Definition FROM_EMAIL : value := getenv w "FROM_EMAIL".
Definition EMAIL_PASSWORD : value := getenv w "EMAIL_PASSWORD".
Definition TO_EMAIL : value := getenv w "TO_EMAIL".

(** [resp.raise_for_status()]: an [HTTPError], which is a
    [RequestException], for a 4xx or 5xx status. *)
Definition raise_for_status (url : string) (resp : response) : result unit :=
  let code := status_code resp in
  if (400 <=? code)%Z && (code <? 500)%Z
  then Raise (RequestException (py_str rt (VInt code) ++ " Client Error: "
                                ++ reason resp ++ " for url: " ++ url))
  else if (500 <=? code)%Z && (code <? 600)%Z
  then Raise (RequestException (py_str rt (VInt code) ++ " Server Error: "
                                ++ reason resp ++ " for url: " ++ url))
  else Ok tt.

Definition http_get (url : string) : M response :=
  fun s => (requests_get w (clock s) url, tick s, [HttpGet url]).

(** The loop of [fetch_listings] over the URLs still to visit, [results]
    being the list built so far. *)
Fixpoint fetch_from (urls : list string) (results : list listing)
  : M (list listing) :=
  match urls with
  | [] => ret results
  | url :: urls' =>
      results' <-
        try_except
          (resp <- http_get url ;;
           lift (raise_for_status url resp) ;;;
           more <- lift (json resp) ;;
           ret (results ++ more)%list)
          (fun e =>
             if is_RequestException e
             then Some (print ("Error fetching from " ++ url ++ ": " ++ str_exn e) ;;;
                        ret results)
             else None) ;;
      fetch_from urls' results'
  end.

Definition fetch_listings : M (list listing) := fetch_from JSON_URLS [].

(** The message of lines 114-117. *)
Definition mime_text (subject body : string) : email :=
  {| Subject := subject; From := FROM_EMAIL; To := TO_EMAIL; payload := body |}.

Definition send_email (subject body : string) : M unit :=
  let msg := mime_text subject body in
  fun s => (smtp_send w (clock s) FROM_EMAIL EMAIL_PASSWORD msg, tick s, [Smtp msg]).

(** Lines 146-179 of [add_to_notion]: the request body [data]. *)
Definition notion_data (listing : listing) : result notion_page :=
  rbind (location_str listing) (fun location_str =>
  let date_posted_ts := get listing "date_posted" in
  rbind (if truthy date_posted_ts
         then rbind (fromtimestamp rt date_posted_ts)
                (fun d => Ok (Some (isoformat rt d)))
         else Ok None) (fun date_posted_iso =>
  rbind (term_str listing) (fun term_str =>
  Ok {| database_id := getenv w "NOTION_DB_ID";
        Company := get_default listing "company_name" (VStr "N/A");
        Title := get_default listing "title" (VStr "N/A");
        Term := term_str;
        Locations := location_str;
        Date_Posted := date_posted_iso;
        Sponsorship := get_default listing "sponsorship" (VStr "N/A") |}))).

Definition NOTION_URL : string := "https://api.notion.com/v1/pages".

Definition notion_post (data : notion_page) : M response :=
  fun s => (requests_post w (clock s) NOTION_URL data, tick s, [NotionPost data]).

Definition add_to_notion (listing : listing) : M unit :=
  data <- lift (notion_data listing) ;;
  response <- notion_post data ;;
  if (status_code response =? 200)%Z || (status_code response =? 201)%Z
  then print ("Added " ++ py_str rt (get listing "title") ++ " at "
              ++ py_str rt (get listing "company_name") ++ " to Notion.")
  else print ("Failed to add to Notion: " ++ py_str rt (VInt (status_code response))
              ++ ", " ++ text response).

(** Lines 222-265: the subject and the body of the alert. *)
Definition alert (l : listing) : result (string * string) :=
  rbind (location_str l) (fun location_str =>
  let date_posted_ts := get l "date_posted" in
  rbind (if truthy date_posted_ts
         then rbind (fromtimestamp rt date_posted_ts) (fun d => Ok (strftime rt d))
         else Ok "N/A") (fun date_posted =>
  let sponsorship := get_default l "sponsorship" (VStr "N/A") in
  rbind (term_str l) (fun term_str =>
  let subject :=
    "🎉 New Internship Alert: "
    ++ py_str rt (get_default l "company_name" (VStr "N/A")) ++ " - "
    ++ py_str rt (get_default l "title" (VStr "N/A")) in
  let body :=
    "Reeled in a new internship for you! 🎣" ++ nl ++ nl
    ++ "🏢 Company: " ++ py_str rt (get_default l "company_name" (VStr "N/A")) ++ nl
    ++ "💼 Title: " ++ py_str rt (get_default l "title" (VStr "N/A")) ++ nl
    ++ "📅 Term: " ++ py_str rt term_str ++ nl
    ++ "📍 Location(s): " ++ location_str ++ nl
    ++ "🗓 Date Posted: " ++ date_posted ++ nl
    ++ "🎫 Sponsorship: " ++ py_str rt sponsorship ++ nl
    ++ "🔗 Apply here: " ++ py_str rt (get_default l "url" (VStr "N/A")) ++ nl ++ nl
    ++ "Remember to swim fast, the best opportunities don't wait!" ++ nl
    ++ "Opportuna 🐟" in
  Ok (subject, body)))).

(** [not uid] for what [get_unique_id] returned. *)
Definition not_uid (uid : option string) : bool :=
  match uid with
  | None => true
  | Some s => s =? ""
  end.

(** The body of the loop of [check_for_new_jobs] for one listing. *)
Definition process_listing (l : listing) : M unit :=
  let uid := get_unique_id rt l in
  if not_uid uid
  then print ("Skipping invalid listing: " ++ py_str rt (VDict l))
  else
    let uid := match uid with Some s => s | None => "" end in
    found <- sql_select uid ;;
    if negb found
    then
      print ("New listing found: " ++ uid) ;;;
      '(subject, body) <- lift (alert l) ;;
      try_except
        (send_email subject body ;;;
         print ("Email sent for: " ++ py_str rt (get l "company_name") ++ " - "
                ++ py_str rt (get l "title")) ;;;
         add_to_notion l ;;;
         sql_insert uid ;;;
         sql_commit)
        (fun e =>
           if is_Exception e
           then Some (print ("Error processing job " ++ uid ++ ": " ++ str_exn e))
           else None)
    else print ("Already seen: " ++ uid).

Definition check_for_new_jobs : M unit :=
  listings <- fetch_listings ;;
  print ("Fetched " ++ py_str rt (VInt (Z.of_nat (length listings))) ++ " listings") ;;;
  for_each listings process_listing.

(** [time.sleep(seconds)], which only Ctrl+C cuts short. *)
Definition sleep (seconds : Z) : M unit :=
  fun s =>
    (if sleep_interrupted w (clock s) then Raise KeyboardInterrupt else Ok tt,
     tick s, [Sleep seconds]).

(** The [while True] loop of the main block, run for at most [fuel]
    iterations: [true] when the loop was left by [break], [false] when it
    is still running after [fuel] iterations. *)
Fixpoint poll_loop (fuel : nat) : M bool :=
  match fuel with
  | O => ret false
  | S fuel' =>
      stop <-
        try_except
          (check_for_new_jobs ;;; ret false)
          (fun e =>
             match e with
             | KeyboardInterrupt =>
                 Some (print (nl ++ "Shutting down Opportuna...") ;;; ret true)
             | _ =>
                 if is_Exception e
                 then Some (print ("Error while checking jobs: " ++ str_exn e) ;;;
                            ret false)
                 else None
             end) ;;
      if stop : bool
      then ret true
      else
        print ("Sleeping for " ++ py_str rt (VInt CHECK_INTERVAL_MINUTES)
               ++ " minutes..." ++ nl) ;;;
        sleep (CHECK_INTERVAL_MINUTES * 60) ;;;
        poll_loop fuel'
  end.


End Program.

(** * Vocabulary of the statements *)

(** The location [get_unique_id] formats. *)
Definition location_of (l : listing) : value :=
  match first_location l with Some first => first | None => VStr "N/A" end.

(** A string without the character [:]. *)
Fixpoint no_colon (s : string) : bool :=
  match s with
  | EmptyString => true
  | String c s' => negb (Ascii.eqb c ":") && no_colon s'
  end.

(** A string that the delimiter [::] cannot be confused with: every [:] in
    it is followed by a character that is not [:], so it holds no [::] and
    does not end with [:]. *)
Fixpoint delimiter_free (s : string) : bool :=
  match s with
  | EmptyString => true
  | String c s' =>
      (negb (Ascii.eqb c ":")
       || match s' with
          | EmptyString => false
          | String d _ => negb (Ascii.eqb d ":")
          end)
      && delimiter_free s'
  end.






(** The events that touch the table [seen]. *)
Definition is_sql (ev : event) : bool :=
  match ev with
  | SqlSelect _ _ | SqlInsert _ _ | SqlCommit | SqlClose => true
  | _ => false
  end.

Definition sql_events (tr : list event) : list event := filter is_sql tr.

(** The traces of SQL statements of a writer that inserts only what its
    last lookup missed, and commits at once. *)
Inductive guarded : list event -> Prop :=
| guarded_nil : guarded []
| guarded_lookup uid found tr :
    guarded tr -> guarded (SqlSelect uid found :: tr)
| guarded_insert uid tr :
    guarded tr ->
    guarded (SqlSelect uid false :: SqlInsert uid true :: SqlCommit :: tr).

(** Lines 276-277: the insert and its commit. *)
Definition mark_seen (uid : string) : M unit := sql_insert uid ;;; sql_commit.

(** The line [add_to_notion] prints for a response. *)
Definition notion_report (rt : runtime) (listing : listing) (response : response)
  : string :=
  if (status_code response =? 200)%Z || (status_code response =? 201)%Z
  then "Added " ++ py_str rt (get listing "title") ++ " at "
       ++ py_str rt (get listing "company_name") ++ " to Notion."
  else "Failed to add to Notion: " ++ py_str rt (VInt (status_code response))
       ++ ", " ++ text response.

(** The body of the [try] of lines 267-277. *)
Definition deliver (rt : runtime) (w : world) (l : listing)
    (uid subject body : string) : M unit :=
  send_email w subject body ;;;
  print ("Email sent for: " ++ py_str rt (get l "company_name") ++ " - "
         ++ py_str rt (get l "title")) ;;;
  add_to_notion rt w l ;;;
  sql_insert uid ;;;
  sql_commit.

(** Its [except Exception] clause. *)
Definition deliver_failed (uid : string) (e : exn) : option (M unit) :=
  if is_Exception e
  then Some (print ("Error processing job " ++ uid ++ ": " ++ str_exn e))
  else None.

(** The state after a listing was delivered and marked: two calls made,
    the fingerprint inserted and committed. *)
Definition marked (uid : string) (st : state) : state :=
  {| db := {| rows := (rows (db st) ++ [uid])%list;
              disk := Some (rows (db st) ++ [uid])%list |};
     clock := S (S (clock st)) |}.

(** One turn of the loop of [fetch_listings]: the [try] block and its
    [except] clause. *)
Definition fetch_one (rt : runtime) (w : world) (url : string)
    (results : list listing) : M (list listing) :=
  try_except
    (resp <- http_get w url ;;
     lift (raise_for_status rt url resp) ;;;
     more <- lift (json resp) ;;
     ret (results ++ more)%list)
    (fun e =>
       if is_RequestException e
       then Some (print ("Error fetching from " ++ url ++ ": " ++ str_exn e) ;;;
                  ret results)
       else None).

(** The two lines of the main loop after the [try] statement, as events. *)
Definition nap (rt : runtime) : list event :=
  [ Print ("Sleeping for " ++ py_str rt (VInt CHECK_INTERVAL_MINUTES)
           ++ " minutes..." ++ nl);
    Sleep (CHECK_INTERVAL_MINUTES * 60) ].

(** The main loop from the end of a [try] statement that did not [break],
    reached in state [s1] with the trace [t1]. *)
Definition resume (rt : runtime) (w : world) (fuel : nat)
    (s1 : state) (t1 : list event) : result bool * state * list event :=
  if sleep_interrupted w (clock s1)
  then (Raise KeyboardInterrupt, tick s1, (t1 ++ nap rt)%list)
  else let '(r, s2, t2) := poll_loop rt w fuel (tick s1) in
       (r, s2, (t1 ++ nap rt ++ t2)%list).

(** No Ctrl+C arrives: no call out of the process is cut by
    [KeyboardInterrupt]. *)
Definition uninterrupted (rt : runtime) (w : world) : Prop :=
  (forall v, fromtimestamp rt v <> Raise KeyboardInterrupt)
  /\ (forall n url, requests_get w n url <> Raise KeyboardInterrupt)
  /\ (forall n url resp,
         requests_get w n url = Ok resp -> json resp <> Raise KeyboardInterrupt)
  /\ (forall n user password msg,
         smtp_send w n user password msg <> Raise KeyboardInterrupt)
  /\ (forall n url page, requests_post w n url page <> Raise KeyboardInterrupt)
  /\ (forall n, sleep_interrupted w n = false).

(** A computation that never raises [KeyboardInterrupt]. *)
Definition calm {A} (m : M A) : Prop :=
  forall st : state, fst (fst (m st)) <> Raise KeyboardInterrupt.

(** ** Scenarios *)

(** A runtime for the scenarios below: the [repr] of [None], of the
    booleans and of the integers, a fixed text for any other value, and the
    epoch for every timestamp.  The listings of the scenarios hold strings only, which are
    formatted as themselves whatever the runtime. *)
Definition scenario_runtime : runtime :=
  {| repr := fun v =>
       match v with
       | VNone => "None"
       | VBool true => "True"
       | VBool false => "False"
       | VInt n => NilZero.string_of_int (Z.to_int n)
       | _ => "<object>"
       end;
     fromtimestamp := fun _ => Ok 0%Z;
     strftime := fun _ => "Jan 01, 1970";
     isoformat := fun _ => "1970-01-01T00:00:00" |}.

Definition acme_listing : listing :=
  [ ("company_name", VStr "Acme"); ("title", VStr "SWE Intern");
    ("locations", VList [VStr "NYC"; VStr "Remote"]);
    ("season", VStr "Fall"); ("url", VStr "https://acme.example/1") ].

(** The same posting in the other feed's schema. *)
Definition acme_listing' : listing :=
  [ ("title", VStr "SWE Intern"); ("company_name", VStr "Acme");
    ("locations", VList [VStr "NYC"]);
    ("terms", VList [VStr "Summer 2026"]); ("sponsorship", VStr "Other") ].

Definition globex_listing : listing :=
  [ ("company_name", VStr "Globex"); ("title", VStr "SWE Intern");
    ("locations", VList [VStr "NYC"]) ].

(** No title. *)
Definition untitled_listing : listing :=
  [ ("company_name", VStr "Acme"); ("title", VStr "");
    ("locations", VList [VStr "NYC"]) ].

(** Two listings whose fields hold the delimiter. *)
Definition colon_listing : listing :=
  [ ("company_name", VStr "a::b"); ("title", VStr "c");
    ("locations", VList [VStr "d"]) ].

Definition colon_listing' : listing :=
  [ ("company_name", VStr "a"); ("title", VStr "b::c");
    ("locations", VList [VStr "d"]) ].

Definition ok_response (body : list listing) : response :=
  {| status_code := 200; reason := "OK"; text := ""; json := Ok body |}.

Definition error_response (code : Z) (why : string) : response :=
  {| status_code := code; reason := why; text := why;
     json := Raise (OtherException "Expecting value") |}.

(** A world where every service answers well: the first feed holds
    [acme_listing], the second [acme_listing'] and [globex_listing]. *)
Definition calm_world : world :=
  {| getenv := fun _ => VNone;
     requests_get := fun _ url =>
       if url =? nth 0 JSON_URLS ""
       then Ok (ok_response [acme_listing])
       else Ok (ok_response [acme_listing'; globex_listing]);
     smtp_send := fun _ _ _ _ => Ok tt;
     requests_post := fun _ _ _ => Ok (ok_response []);
     sleep_interrupted := fun _ => false |}.


(** The mail server refuses the login. *)
Definition no_mail_world : world :=
  {| getenv := getenv calm_world;
     requests_get := requests_get calm_world;
     smtp_send := fun _ _ _ _ => Raise (OtherException "Username and Password not accepted");
     requests_post := requests_post calm_world;
     sleep_interrupted := sleep_interrupted calm_world |}.

(** Notion answers 400. *)
Definition notion_400_world : world :=
  {| getenv := getenv calm_world;
     requests_get := requests_get calm_world;
     smtp_send := smtp_send calm_world;
     requests_post := fun _ _ _ => Ok (error_response 400 "Bad Request");
     sleep_interrupted := sleep_interrupted calm_world |}.

(** The connection to Notion fails. *)
Definition notion_down_world : world :=
  {| getenv := getenv calm_world;
     requests_get := requests_get calm_world;
     smtp_send := smtp_send calm_world;
     requests_post := fun _ _ _ => Raise (RequestException "Connection refused");
     sleep_interrupted := sleep_interrupted calm_world |}.

(** For every feed the [try] block raises an exception that is not a
    [RequestException]: here the [ValueError] with which a [requests] older
    than 2.27 reports a body that is not JSON (since 2.27 that error is a
    [RequestException], which the [except] clause catches). *)
Definition garbled_world : world :=
  {| getenv := getenv calm_world;
     requests_get := fun _ _ =>
       Ok {| status_code := 200; reason := "OK"; text := "<html>";
             json := Raise (OtherException "Expecting value") |};
     smtp_send := smtp_send calm_world;
     requests_post := requests_post calm_world;
     sleep_interrupted := sleep_interrupted calm_world |}.

(** The state of a process started on a disk without [seen.db]. *)
Definition fresh : state := {| db := startup None; clock := 0 |}.

(** The fingerprint, the alert and the Notion page of [acme_listing]. *)
Definition acme_uid : string := "Acme::SWE Intern::NYC".

Definition acme_alert : string * string :=
  match alert scenario_runtime acme_listing with
  | Ok sb => sb
  | Raise _ => ("", "")
  end.

Definition acme_page : notion_page :=
  {| database_id := VNone;
     Company := VStr "Acme";
     Title := VStr "SWE Intern";
     Term := VStr "Fall";
     Locations := "NYC; Remote";
     Date_Posted := None;
     Sponsorship := VStr "N/A" |}.

(** The state after [uid] was inserted and the insert committed. *)
Definition inserted (uid : string) (st : state) : state :=
  {| db := {| rows := (rows (db st) ++ [uid])%list;
              disk := Some (rows (db st) ++ [uid])%list |};
     clock := clock st |}.

(** A process whose table holds the fingerprint of [acme_listing]. *)
Definition acme_seen : state := inserted acme_uid fresh.

(** Ctrl+C arrives while the first feed is fetched. *)
Definition interrupted_world : world :=
  {| getenv := getenv calm_world;
     requests_get := fun _ _ => Raise KeyboardInterrupt;
     smtp_send := smtp_send calm_world;
     requests_post := requests_post calm_world;
     sleep_interrupted := sleep_interrupted calm_world |}.

(** A run from [st] whose SQL statements are guarded and which keeps the
    rows of the table distinct. *)
Definition tidy {A} (st : state) (out : result A * state * list event) : Prop :=
  guarded (sql_events (snd out))
  /\ (NoDup (rows (db st)) -> NoDup (rows (db (snd (fst out))))).

(** A run from [st] that executes no SQL statement and leaves the database
    as it is. *)
Definition silent {A} (st : state) (out : result A * state * list event) : Prop :=
  sql_events (snd out) = [] /\ db (snd (fst out)) = db st.

Definition globex_uid : string := "Globex::SWE Intern::NYC".

(** Two listings whose titles hold a colon. *)
Definition summer_listing : listing :=
  [ ("company_name", VStr "Acme");
    ("title", VStr "Software Engineer Intern: Summer 2026");
    ("locations", VList [VStr "NYC"]) ].

Definition fall_listing : listing :=
  [ ("company_name", VStr "Acme");
    ("title", VStr "Software Engineer Intern: Fall 2026");
    ("locations", VList [VStr "NYC"]) ].



(** ** Vocabulary of the further properties *)

(** What the per-listing [except Exception] clause makes of an exception
    [e] raised in state [s1] after the trace [t1]: caught and printed, or,
    for [KeyboardInterrupt], let through. *)
Definition caught (uid : string) (e : exn) (s1 : state) (t1 : list event)
  : result unit * state * list event :=
  if is_Exception e
  then (Ok tt, s1,
        (t1 ++ [Print ("Error processing job " ++ uid ++ ": " ++ str_exn e)])%list)
  else (Raise e, s1, t1).

(** Every run of [m] has a trace with the property [Q]. *)
Definition traced {A} (Q : list event -> Prop) (m : M A) : Prop :=
  forall st : state, Q (snd (m st)).

(** The events that reach a service or change the table. *)
Definition outward (ev : event) : bool :=
  match ev with
  | Smtp _ | NotionPost _ | SqlInsert _ _ | SqlCommit | SqlClose => true
  | _ => false
  end.

Definition is_smtp (ev : event) : bool :=
  match ev with Smtp _ => true | _ => false end.

Definition is_notion_post (ev : event) : bool :=
  match ev with NotionPost _ => true | _ => false end.

Definition is_insert (ev : event) : bool :=
  match ev with SqlInsert _ _ => true | _ => false end.

(** How many events of a trace satisfy [p]. *)
Definition count (p : event -> bool) (tr : list event) : nat :=
  length (filter p tr).

(** The URLs requested by a trace, in order. *)
Fixpoint http_urls (tr : list event) : list string :=
  match tr with
  | [] => []
  | HttpGet url :: tr' => url :: http_urls tr'
  | _ :: tr' => http_urls tr'
  end.

(** Everything the connection reads has been committed. *)
Definition committed (d : database) : Prop := disk d = Some (rows d).

(** The listing is invalid or its fingerprint is in the table. *)
Definition known (rt : runtime) (d : database) (l : listing) : Prop :=
  match get_unique_id rt l with
  | None => True
  | Some uid => contains uid d = true
  end.

(** A listing whose first location is a number. *)
Definition numeric_listing : listing :=
  [ ("company_name", VStr "Initech"); ("title", VStr "Intern");
    ("locations", VList [VInt 7]) ].

(** The first feed holds [numeric_listing] before [globex_listing]. *)
Definition numeric_world : world :=
  {| getenv := getenv calm_world;
     requests_get := fun _ url =>
       if url =? nth 0 JSON_URLS ""
       then Ok (ok_response [numeric_listing; globex_listing])
       else Ok (ok_response []);
     smtp_send := smtp_send calm_world;
     requests_post := requests_post calm_world;
     sleep_interrupted := sleep_interrupted calm_world |}.


(** A listing that carries both [terms] and [season]. *)
Definition both_terms_listing : listing :=
  [ ("company_name", VStr "Acme"); ("title", VStr "SWE Intern");
    ("locations", VList [VStr "NYC"]);
    ("season", VStr "Fall");
    ("terms", VList [VStr "Summer 2026"; VStr "Fall 2026"]) ].

(** The outcome of a new listing: the lookup that missed and the line
    printed for it, then what the rest of the loop body did. *)
Definition after_lookup (uid : string) (out : result unit * state * list event)
  : result unit * state * list event :=
  let '(r, s, t) := out in
  (r, s, SqlSelect uid false :: Print ("New listing found: " ++ uid) :: t).

(** The line printed after the e-mail of a listing was sent. *)
Definition sent_line (rt : runtime) (l : listing) : event :=
  Print ("Email sent for: " ++ py_str rt (get l "company_name") ++ " - "
         ++ py_str rt (get l "title")).



(** The state a first cycle in the calm world leaves. *)
Definition settled : state :=
  snd (fst (check_for_new_jobs scenario_runtime calm_world fresh)).
(** * Properties *)

(** ** The fingerprint *)

Lemma validated_fields (l : listing) :
  validated l = true ->
  truthy (get l "company_name") = true /\ truthy (get l "title") = true
  /\ truthy (get l "locations") = true.
Proof.
  unfold validated. intro H.
  apply andb_true_iff in H as [H Hloc].
  apply andb_true_iff in H as [Hc Ht]. auto.
Qed.

Lemma get_unique_id_validated (rt : runtime) (l : listing) :
  validated l = true ->
  get_unique_id rt l =
    Some (py_str rt (get l "company_name") ++ "::" ++ py_str rt (get l "title")
          ++ "::" ++ py_str rt (location_of l)).
Proof.
  intro H. destruct (validated_fields l H) as (Hc & Ht & Hl).
  unfold get_unique_id, location_of, first_location.
  rewrite Hc, Ht, Hl. simpl.
  destruct (get l "locations") as [| | | | |[|first rest]|]; reflexivity.
Qed.

Lemma get_unique_id_not_validated (rt : runtime) (l : listing) :
  validated l = false -> get_unique_id rt l = None.
Proof.
  unfold validated, get_unique_id. intro H.
  destruct (truthy (get l "company_name")), (truthy (get l "title")),
    (truthy (get l "locations")); simpl in *; congruence.
Qed.

(** C1. Two listings that pass the validation of [get_unique_id] and agree
    on [company_name], on [title] and on the first location get the same
    fingerprint string, whatever their other fields hold. *)
Theorem fingerprint_same_triple (rt : runtime) (l1 l2 : listing) :
  validated l1 = true -> validated l2 = true ->
  get l1 "company_name" = get l2 "company_name" ->
  get l1 "title" = get l2 "title" ->
  first_location l1 = first_location l2 ->
  exists fingerprint,
    get_unique_id rt l1 = Some fingerprint /\ get_unique_id rt l2 = Some fingerprint.
Proof.
  intros V1 V2 Hc Ht Hl.
  rewrite (get_unique_id_validated rt l1 V1), (get_unique_id_validated rt l2 V2).
  unfold location_of. rewrite Hc, Ht, Hl. eauto.
Qed.

Lemma no_colon_delimiter_free (s : string) :
  no_colon s = true -> delimiter_free s = true.
Proof.
  induction s as [|c s IH]; [reflexivity|]. simpl. intro H.
  apply andb_true_iff in H as [Hc Hs]. rewrite Hc, (IH Hs). reflexivity.
Qed.

Lemma delimiter_free_tail (c : ascii) (s : string) :
  delimiter_free (String c s) = true -> delimiter_free s = true.
Proof. simpl. intro H. apply andb_true_iff in H as [_ H]. exact H. Qed.

(** A string that starts with [:] and is delimiter-free goes on with a
    character that is not [:]. *)
Lemma delimiter_free_colon (s : string) :
  delimiter_free (String ":" s) = true ->
  exists d s', s = String d s' /\ Ascii.eqb d ":" = false.
Proof.
  simpl. intro H. apply andb_true_iff in H as [H _].
  destruct s as [|d s']; [discriminate|].
  exists d, s'. split; [reflexivity|]. apply negb_true_iff. exact H.
Qed.

Lemma split_at_delimiter (a b x y : string) :
  delimiter_free a = true -> delimiter_free b = true ->
  a ++ "::" ++ x = b ++ "::" ++ y -> a = b /\ x = y.
Proof.
  revert b. induction a as [|c a IH]; intros [|d b] Ha Hb E.
  - simpl in E. injection E as E. auto.
  - simpl in E. injection E as Ed E. subst d.
    destruct (delimiter_free_colon b Hb) as (e & b' & -> & He).
    simpl in E. injection E as Ee _. subst e. discriminate He.
  - simpl in E. injection E as Ec E. subst c.
    destruct (delimiter_free_colon a Ha) as (e & a' & -> & He).
    simpl in E. injection E as Ee _. subst e. discriminate He.
  - simpl in E. injection E as Ecd E. subst d.
    destruct (IH b (delimiter_free_tail c a Ha) (delimiter_free_tail c b Hb) E)
      as [-> ->].
    auto.
Qed.

(** C2, as the code has it. When the company and the title of two validated
    listings are strings that hold no [::] and do not end with [:], and
    their first locations are strings, different (company, title, location)
    triples give different fingerprints. *)
Theorem fingerprint_injective_delimiter_free
    (rt : runtime) (l1 l2 : listing) (c1 t1 p1 c2 t2 p2 : string) :
  validated l1 = true -> validated l2 = true ->
  triple l1 = (VStr c1, VStr t1, Some (VStr p1)) ->
  triple l2 = (VStr c2, VStr t2, Some (VStr p2)) ->
  delimiter_free c1 = true -> delimiter_free t1 = true ->
  delimiter_free c2 = true -> delimiter_free t2 = true ->
  triple l1 <> triple l2 ->
  get_unique_id rt l1 <> get_unique_id rt l2.
Proof.
  intros V1 V2 T1 T2 Nc1 Nt1 Nc2 Nt2 Hne E. apply Hne.
  rewrite (get_unique_id_validated rt l1 V1), (get_unique_id_validated rt l2 V2) in E.
  rewrite T1, T2. unfold triple in T1, T2.
  injection T1 as Hc1 Ht1 Hl1. injection T2 as Hc2 Ht2 Hl2.
  unfold location_of in E. rewrite Hc1, Ht1, Hl1, Hc2, Ht2, Hl2 in E.
  simpl py_str in E. injection E as E.
  destruct (split_at_delimiter _ _ _ _ Nc1 Nc2 E) as [-> E'].
  destruct (split_at_delimiter _ _ _ _ Nt1 Nt2 E') as [-> ->].
  reflexivity.
Qed.

Lemma fingerprint_same_triple_witness :
  exists fingerprint,
    get_unique_id scenario_runtime acme_listing = Some fingerprint
    /\ get_unique_id scenario_runtime acme_listing' = Some fingerprint.
Proof.
  apply (fingerprint_same_triple scenario_runtime acme_listing acme_listing');
    reflexivity.
Defined.

(** The fingerprints of two listings with different triples coincide when a
    field holds the delimiter. *)
Lemma fingerprint_collision :
  validated colon_listing = true /\ validated colon_listing' = true
  /\ triple colon_listing <> triple colon_listing'
  /\ get_unique_id scenario_runtime colon_listing
     = get_unique_id scenario_runtime colon_listing'.
Proof.
  repeat split; try reflexivity. discriminate.
Qed.

(** The collision does not depend on the runtime. *)
Lemma colon_listings_collide (rt : runtime) :
  get_unique_id rt colon_listing = Some "a::b::c::d"
  /\ get_unique_id rt colon_listing' = Some "a::b::c::d".
Proof. split; reflexivity. Qed.

Lemma fingerprint_injective_witness :
  triple summer_listing <> triple fall_listing
  /\ get_unique_id scenario_runtime summer_listing
     <> get_unique_id scenario_runtime fall_listing.
Proof.
  split; [discriminate|].
  apply (fingerprint_injective_delimiter_free scenario_runtime
           summer_listing fall_listing
           "Acme" "Software Engineer Intern: Summer 2026" "NYC"
           "Acme" "Software Engineer Intern: Fall 2026" "NYC");
    try reflexivity.
  discriminate.
Defined.

(** ** One listing of a cycle *)

Section Listing.

Variable rt : runtime.
Variable w : world.

Lemma bind_run {A B} (m : M A) (f : A -> M B) (s : state) :
  bind m f s
  = match m s with
    | (Ok a, s1, t1) => let '(r, s2, t2) := f a s1 in (r, s2, (t1 ++ t2)%list)
    | (Raise e, s1, t1) => (Raise e, s1, t1)
    end.
Proof. reflexivity. Qed.

Lemma try_except_run {A} (m : M A) (handler : exn -> option (M A)) (s : state) :
  try_except m handler s
  = match m s with
    | (Ok a, s1, t1) => (Ok a, s1, t1)
    | (Raise e, s1, t1) =>
        match handler e with
        | Some h => let '(r, s2, t2) := h s1 in (r, s2, (t1 ++ t2)%list)
        | None => (Raise e, s1, t1)
        end
    end.
Proof. reflexivity. Qed.

Lemma append_delimiter_nonempty (a b : string) : (a ++ "::" ++ b =? "") = false.
Proof. destruct a; reflexivity. Qed.

Lemma not_uid_fingerprint (l : listing) (uid : string) :
  get_unique_id rt l = Some uid -> not_uid (Some uid) = false.
Proof.
  unfold get_unique_id.
  destruct (negb _ || negb _ || negb _); [discriminate|].
  intros [= <-]. apply append_delimiter_nonempty.
Qed.

Lemma process_listing_invalid (l : listing) (st : state) :
  get_unique_id rt l = None ->
  process_listing rt w l st
  = (Ok tt, st, [Print ("Skipping invalid listing: " ++ py_str rt (VDict l))]).
Proof. intro H. unfold process_listing. rewrite H. reflexivity. Qed.

Lemma process_listing_seen (l : listing) (uid : string) (st : state) :
  get_unique_id rt l = Some uid -> contains uid (db st) = true ->
  process_listing rt w l st
  = (Ok tt, st, [SqlSelect uid true; Print ("Already seen: " ++ uid)]).
Proof.
  intros H Hc. unfold process_listing.
  rewrite H, (not_uid_fingerprint l uid H).
  rewrite bind_run. unfold sql_select. rewrite Hc. reflexivity.
Qed.

Lemma process_listing_alert_raises (l : listing) (uid : string) (st : state) (e : exn) :
  get_unique_id rt l = Some uid -> contains uid (db st) = false ->
  alert rt l = Raise e ->
  process_listing rt w l st
  = (Raise e, st, [SqlSelect uid false; Print ("New listing found: " ++ uid)]).
Proof.
  intros H Hc Ha. unfold process_listing.
  rewrite H, (not_uid_fingerprint l uid H).
  rewrite bind_run. unfold sql_select. rewrite Hc.
  cbv beta iota zeta delta [negb]. rewrite bind_run.
  unfold print at 1. unfold emit. cbv beta iota zeta.
  rewrite bind_run. unfold lift. rewrite Ha. reflexivity.
Qed.

Lemma process_listing_new (l : listing) (uid subject body : string) (st : state) :
  get_unique_id rt l = Some uid -> contains uid (db st) = false ->
  alert rt l = Ok (subject, body) ->
  process_listing rt w l st
  = let '(r, st', tr) :=
      try_except (deliver rt w l uid subject body) (deliver_failed uid) st in
    (r, st', SqlSelect uid false :: Print ("New listing found: " ++ uid) :: tr).
Proof.
  intros H Hc Ha. unfold process_listing.
  rewrite H, (not_uid_fingerprint l uid H).
  rewrite bind_run. unfold sql_select. rewrite Hc.
  cbv beta iota zeta delta [negb]. rewrite bind_run.
  unfold print at 1. unfold emit. cbv beta iota zeta.
  rewrite bind_run. unfold lift. rewrite Ha. cbv beta iota zeta.
  unfold deliver, deliver_failed, notion_report.
  match goal with |- context [try_except ?m ?h st] =>
    destruct (try_except m h st) as [[r st'] tr] end.
  reflexivity.
Qed.

Lemma add_to_notion_run (l : listing) (st : state) :
  add_to_notion rt w l st
  = match notion_data rt w l with
    | Raise e => (Raise e, st, [])
    | Ok page =>
        match requests_post w (clock st) NOTION_URL page with
        | Raise e => (Raise e, tick st, [NotionPost page])
        | Ok resp =>
            (Ok tt, tick st, [NotionPost page; Print (notion_report rt l resp)])
        end
    end.
Proof.
  unfold add_to_notion. rewrite bind_run. unfold lift.
  destruct (notion_data rt w l) as [page|e]; [|reflexivity].
  cbv beta iota zeta. rewrite bind_run. unfold notion_post.
  destruct (requests_post w (clock st) NOTION_URL page) as [resp|e]; [|reflexivity].
  cbv beta iota zeta. unfold notion_report.
  destruct ((status_code resp =? 200)%Z || (status_code resp =? 201)%Z);
    reflexivity.
Qed.

(** What the [try] block does, by what the services answer. *)
Lemma deliver_run (l : listing) (uid subject body : string) (st : state) :
  contains uid (db st) = false ->
  deliver rt w l uid subject body st
  = let msg := mime_text w subject body in
    let sent :=
      Print ("Email sent for: " ++ py_str rt (get l "company_name") ++ " - "
             ++ py_str rt (get l "title")) in
    match smtp_send w (clock st) (FROM_EMAIL w) (EMAIL_PASSWORD w) msg with
    | Raise e => (Raise e, tick st, [Smtp msg])
    | Ok _ =>
        match notion_data rt w l with
        | Raise e => (Raise e, tick st, [Smtp msg; sent])
        | Ok page =>
            match requests_post w (S (clock st)) NOTION_URL page with
            | Raise e => (Raise e, tick (tick st), [Smtp msg; sent; NotionPost page])
            | Ok resp =>
                (Ok tt, marked uid st,
                 [Smtp msg; sent; NotionPost page; Print (notion_report rt l resp);
                  SqlInsert uid true; SqlCommit])
            end
        end
    end.
Proof.
  intro Hc. unfold deliver. cbv zeta.
  rewrite bind_run. unfold send_email at 1.
  destruct (smtp_send w (clock st) (FROM_EMAIL w) (EMAIL_PASSWORD w)
              (mime_text w subject body)) as [[]|e]; [|reflexivity].
  cbv beta iota zeta. rewrite bind_run. unfold print at 1. unfold emit.
  cbv beta iota zeta. rewrite bind_run, add_to_notion_run.
  destruct (notion_data rt w l) as [page|e]; [|reflexivity].
  change (clock (tick st)) with (S (clock st)).
  destruct (requests_post w (S (clock st)) NOTION_URL page) as [resp|e];
    [|reflexivity].
  cbv beta iota zeta. rewrite bind_run. unfold sql_insert.
  change (db (tick (tick st))) with (db st). rewrite Hc. reflexivity.
Qed.

Lemma alert_notion_data (l : listing) (subject body : string) :
  alert rt l = Ok (subject, body) -> exists page, notion_data rt w l = Ok page.
Proof.
  unfold alert, notion_data, rbind.
  destruct (location_str l); [|discriminate].
  destruct (truthy (get l "date_posted")).
  - destruct (fromtimestamp rt (get l "date_posted")); [|discriminate].
    destruct (term_str l); [eauto|discriminate].
  - destruct (term_str l); [eauto|discriminate].
Qed.

End Listing.

(** C7. A listing whose company name, title or locations value is missing,
    empty or otherwise falsy gets no fingerprint, and the cycle only prints
    a line for it: no e-mail, no Notion page, no SQL statement, and the
    state is left as it was. *)
Theorem invalid_listing_discarded
    (rt : runtime) (w : world) (l : listing) (st : state) :
  truthy (get l "company_name") = false \/ truthy (get l "title") = false
  \/ truthy (get l "locations") = false ->
  get_unique_id rt l = None
  /\ process_listing rt w l st
     = (Ok tt, st, [Print ("Skipping invalid listing: " ++ py_str rt (VDict l))]).
Proof.
  intro H.
  assert (Hv : validated l = false).
  { unfold validated. destruct H as [H|[H|H]]; rewrite H;
      repeat (rewrite ?andb_false_r, ?andb_false_l); reflexivity. }
  pose proof (get_unique_id_not_validated rt l Hv) as Hid.
  split; [exact Hid | apply process_listing_invalid; exact Hid].
Qed.

(** A missing key reads as [None], which is falsy. *)
Lemma missing_is_falsy (l : listing) (k : string) :
  lookup k l = None -> truthy (get l k) = false.
Proof. unfold get, get_default. intros ->. reflexivity. Qed.

(** C3. When [send_email] raises an exception for a listing that is not in
    the table, the per-listing [except] clause catches and prints it, no SQL
    statement but the lookup is executed and the table is unchanged; so a
    later cycle that meets the listing with the table in that state sends
    the e-mail again, whatever the services answer then. *)
Theorem notification_failure_not_marked
    (rt : runtime) (w : world) (l : listing) (st : state) (uid subject body : string) (e : exn) :
  get_unique_id rt l = Some uid -> contains uid (db st) = false ->
  alert rt l = Ok (subject, body) ->
  smtp_send w (clock st) (FROM_EMAIL w) (EMAIL_PASSWORD w)
    (mime_text w subject body) = Raise e ->
  is_Exception e = true ->
  process_listing rt w l st
  = (Ok tt, tick st,
     [SqlSelect uid false; Print ("New listing found: " ++ uid);
      Smtp (mime_text w subject body);
      Print ("Error processing job " ++ uid ++ ": " ++ str_exn e)])
  /\ db (tick st) = db st
  /\ forall (w' : world) (st' : state),
       db st' = db st ->
       In (Smtp (mime_text w' subject body)) (snd (process_listing rt w' l st')).
Proof.
  intros Hid Hc Ha Hs He. split; [|split; [reflexivity|]].
  - rewrite (process_listing_new rt w l uid subject body st Hid Hc Ha).
    rewrite try_except_run, (deliver_run rt w l uid subject body st Hc).
    cbv zeta. rewrite Hs. unfold deliver_failed. rewrite He. reflexivity.
  - intros w' st' Hdb.
    assert (Hc' : contains uid (db st') = false) by (rewrite Hdb; exact Hc).
    rewrite (process_listing_new rt w' l uid subject body st' Hid Hc' Ha).
    rewrite try_except_run.
    rewrite (deliver_run rt w' l uid subject body st' Hc'). cbv zeta.
    destruct (smtp_send w' _ _ _ _) as [[]|e1].
    + destruct (notion_data rt w' l) as [page|e2].
      * destruct (requests_post w' _ _ _) as [resp|e3].
        -- simpl. auto.
        -- destruct (deliver_failed uid e3) as [h|]; [|simpl; auto].
           destruct (h _) as [[r s2] t2]. simpl. auto.
      * destruct (deliver_failed uid e2) as [h|]; [|simpl; auto].
        destruct (h _) as [[r s2] t2]. simpl. auto.
    + destruct (deliver_failed uid e1) as [h|]; [|simpl; auto].
      destruct (h _) as [[r s2] t2]. simpl. auto.
Qed.


Lemma invalid_listing_witness :
  get_unique_id scenario_runtime untitled_listing = None
  /\ process_listing scenario_runtime calm_world untitled_listing fresh
     = (Ok tt, fresh,
        [Print ("Skipping invalid listing: "
                ++ py_str scenario_runtime (VDict untitled_listing))]).
Proof.
  apply (invalid_listing_discarded scenario_runtime calm_world untitled_listing fresh).
  right. left. reflexivity.
Defined.

Lemma notification_failure_witness :
  process_listing scenario_runtime no_mail_world acme_listing fresh
  = (Ok tt, tick fresh,
     [SqlSelect acme_uid false; Print ("New listing found: " ++ acme_uid);
      Smtp (mime_text no_mail_world (fst acme_alert) (snd acme_alert));
      Print ("Error processing job " ++ acme_uid ++ ": "
             ++ "Username and Password not accepted")])
  /\ db (tick fresh) = db fresh
  /\ forall (w' : world) (st' : state),
       db st' = db fresh ->
       In (Smtp (mime_text w' (fst acme_alert) (snd acme_alert)))
          (snd (process_listing scenario_runtime w' acme_listing st')).
Proof.
  apply (notification_failure_not_marked scenario_runtime no_mail_world
           acme_listing fresh acme_uid (fst acme_alert) (snd acme_alert)
           (OtherException "Username and Password not accepted"));
    reflexivity.
Defined.

(** C4, as the code has it. For a listing that is not in the table and whose
    e-mail was sent: a response of Notion with a status other than 200 and
    201 is printed by [add_to_notion], which returns, and the fingerprint is
    inserted and committed; an exception raised by the request to Notion
    leaves [add_to_notion], is caught and printed by the per-listing
    [except] clause, and the fingerprint is not inserted. *)
Theorem archival_failure
    (rt : runtime) (w : world) (l : listing) (st : state)
    (uid subject body : string) (page : notion_page) :
  get_unique_id rt l = Some uid -> contains uid (db st) = false ->
  alert rt l = Ok (subject, body) ->
  notion_data rt w l = Ok page ->
  smtp_send w (clock st) (FROM_EMAIL w) (EMAIL_PASSWORD w)
    (mime_text w subject body) = Ok tt ->
  let sent :=
    Print ("Email sent for: " ++ py_str rt (get l "company_name") ++ " - "
           ++ py_str rt (get l "title")) in
  (forall resp : response,
      requests_post w (S (clock st)) NOTION_URL page = Ok resp ->
      (status_code resp =? 200)%Z || (status_code resp =? 201)%Z = false ->
      add_to_notion rt w l (tick st)
      = (Ok tt, tick (tick st),
         [NotionPost page;
          Print ("Failed to add to Notion: " ++ py_str rt (VInt (status_code resp))
                 ++ ", " ++ text resp)])
      /\ process_listing rt w l st
         = (Ok tt, marked uid st,
            [SqlSelect uid false; Print ("New listing found: " ++ uid);
             Smtp (mime_text w subject body); sent; NotionPost page;
             Print ("Failed to add to Notion: "
                    ++ py_str rt (VInt (status_code resp)) ++ ", " ++ text resp);
             SqlInsert uid true; SqlCommit])
      /\ contains uid (db (marked uid st)) = true
      /\ disk (db (marked uid st)) = Some (rows (db st) ++ [uid])%list)
  /\ (forall e : exn,
         requests_post w (S (clock st)) NOTION_URL page = Raise e ->
         is_Exception e = true ->
         add_to_notion rt w l (tick st) = (Raise e, tick (tick st), [NotionPost page])
         /\ process_listing rt w l st
            = (Ok tt, tick (tick st),
               [SqlSelect uid false; Print ("New listing found: " ++ uid);
                Smtp (mime_text w subject body); sent; NotionPost page;
                Print ("Error processing job " ++ uid ++ ": " ++ str_exn e)])
         /\ db (tick (tick st)) = db st).
Proof.
  intros Hid Hc Ha Hp Hs sent. split.
  - intros resp Hr Hstatus. repeat split.
    + rewrite add_to_notion_run, Hp.
      change (clock (tick st)) with (S (clock st)). rewrite Hr.
      unfold notion_report. rewrite Hstatus. reflexivity.
    + rewrite (process_listing_new rt w l uid subject body st Hid Hc Ha).
      rewrite try_except_run, (deliver_run rt w l uid subject body st Hc).
      cbv zeta. rewrite Hs, Hp, Hr. unfold notion_report. rewrite Hstatus.
      reflexivity.
    + unfold contains, marked. simpl. rewrite existsb_app. simpl.
      rewrite String.eqb_refl. apply orb_true_iff. right. reflexivity.
  - intros e Hr He. repeat split.
    + rewrite add_to_notion_run, Hp.
      change (clock (tick st)) with (S (clock st)). rewrite Hr. reflexivity.
    + rewrite (process_listing_new rt w l uid subject body st Hid Hc Ha).
      rewrite try_except_run, (deliver_run rt w l uid subject body st Hc).
      cbv zeta. rewrite Hs, Hp, Hr. unfold deliver_failed. rewrite He.
      reflexivity.
Qed.

Lemma archival_failure_witness :
  (add_to_notion scenario_runtime notion_400_world acme_listing (tick fresh)
   = (Ok tt, tick (tick fresh),
      [NotionPost acme_page;
       Print "Failed to add to Notion: 400, Bad Request"])
   /\ contains acme_uid
        (db (snd (fst (process_listing scenario_runtime notion_400_world
                         acme_listing fresh)))) = true)
  /\ (add_to_notion scenario_runtime notion_down_world acme_listing (tick fresh)
      = (Raise (RequestException "Connection refused"), tick (tick fresh),
         [NotionPost acme_page])
      /\ contains acme_uid
           (db (snd (fst (process_listing scenario_runtime notion_down_world
                            acme_listing fresh)))) = false).
Proof.
  split.
  - destruct (archival_failure scenario_runtime notion_400_world acme_listing fresh
                acme_uid (fst acme_alert) (snd acme_alert) acme_page
                eq_refl eq_refl eq_refl eq_refl eq_refl) as [H _].
    destruct (H (error_response 400 "Bad Request") eq_refl eq_refl)
      as (Ha & Hp & Hm & _).
    split; [exact Ha | rewrite Hp; exact Hm].
  - destruct (archival_failure scenario_runtime notion_down_world acme_listing fresh
                acme_uid (fst acme_alert) (snd acme_alert) acme_page
                eq_refl eq_refl eq_refl eq_refl eq_refl) as [_ H].
    destruct (H (RequestException "Connection refused") eq_refl eq_refl)
      as (Ha & Hp & _).
    split; [exact Ha | rewrite Hp; reflexivity].
Defined.

(** With the e-mail sent, an exception of the request to Notion leaves
    [add_to_notion] and the fingerprint is not inserted. *)
Lemma archival_error_blocks_marking :
  add_to_notion scenario_runtime notion_down_world acme_listing (tick fresh)
  = (Raise (RequestException "Connection refused"), tick (tick fresh),
     [NotionPost acme_page])
  /\ process_listing scenario_runtime notion_down_world acme_listing fresh
     = (Ok tt, tick (tick fresh),
        [SqlSelect acme_uid false; Print ("New listing found: " ++ acme_uid);
         Smtp (mime_text notion_down_world (fst acme_alert) (snd acme_alert));
         Print "Email sent for: Acme - SWE Intern";
         NotionPost acme_page;
         Print ("Error processing job " ++ acme_uid ++ ": Connection refused")])
  /\ contains acme_uid (db (tick (tick fresh))) = false
  /\ disk (db (tick (tick fresh))) = Some [].
Proof. repeat split. Qed.

(** ** The table [seen] *)

Lemma contains_In (uid : string) (d : database) :
  contains uid d = true <-> In uid (rows d).
Proof.
  unfold contains. rewrite existsb_exists. split.
  - intros (x & Hx & E). apply String.eqb_eq in E. subst x. exact Hx.
  - intro H. exists uid. split; [exact H | apply String.eqb_refl].
Qed.

Lemma contains_not_In (uid : string) (d : database) :
  contains uid d = false <-> ~ In uid (rows d).
Proof.
  rewrite <- contains_In. destruct (contains uid d); split; intro H;
    try reflexivity; try discriminate; try (intro; discriminate).
  exfalso. apply H. reflexivity.
Qed.

Lemma contains_inserted (uid : string) (st : state) :
  contains uid (db (inserted uid st)) = true.
Proof. apply contains_In. simpl. apply in_or_app. right. left. reflexivity. Qed.

Lemma mark_seen_absent (uid : string) (st : state) :
  contains uid (db st) = false ->
  mark_seen uid st = (Ok tt, inserted uid st, [SqlInsert uid true; SqlCommit]).
Proof.
  intro Hc. unfold mark_seen. rewrite bind_run. unfold sql_insert. rewrite Hc.
  reflexivity.
Qed.

Lemma mark_seen_present (uid : string) (st : state) :
  contains uid (db st) = true ->
  mark_seen uid st
  = (Raise (IntegrityError "UNIQUE constraint failed: seen.id"), st,
     [SqlInsert uid false]).
Proof.
  intro Hc. unfold mark_seen. rewrite bind_run. unfold sql_insert. rewrite Hc.
  reflexivity.
Qed.

Lemma count_occ_absent (uid : string) (d : database) :
  contains uid d = false -> count_occ string_dec (rows d) uid = 0.
Proof.
  intro H. apply count_occ_not_In. apply contains_not_In. exact H.
Qed.

(** C5, as the code has it. Inserting a fingerprint the table does not hold
    and inserting it again leaves exactly one row for it; the second insert
    is not a silent no-op but is rejected with [IntegrityError], leaving the
    table as it was.  What a cycle does with a listing whose fingerprint is
    in the table is a no-op: it looks it up and prints a line. *)
Theorem insert_twice (st : state) (uid : string) :
  contains uid (db st) = false ->
  mark_seen uid st = (Ok tt, inserted uid st, [SqlInsert uid true; SqlCommit])
  /\ mark_seen uid (inserted uid st)
     = (Raise (IntegrityError "UNIQUE constraint failed: seen.id"),
        inserted uid st, [SqlInsert uid false])
  /\ count_occ string_dec (rows (db (inserted uid st))) uid = 1
  /\ forall (rt : runtime) (w : world) (l : listing),
       get_unique_id rt l = Some uid ->
       process_listing rt w l (inserted uid st)
       = (Ok tt, inserted uid st,
          [SqlSelect uid true; Print ("Already seen: " ++ uid)]).
Proof.
  intro Hc. repeat split.
  - apply mark_seen_absent. exact Hc.
  - apply mark_seen_present. apply contains_inserted.
  - simpl. rewrite count_occ_app, (count_occ_absent uid (db st) Hc). simpl.
    destruct (string_dec uid uid) as [_|N]; [reflexivity | contradiction].
  - intros rt w l Hid. apply process_listing_seen; [exact Hid|].
    apply contains_inserted.
Qed.

Lemma insert_twice_witness :
  mark_seen acme_uid fresh
  = (Ok tt, acme_seen, [SqlInsert acme_uid true; SqlCommit])
  /\ mark_seen acme_uid acme_seen
     = (Raise (IntegrityError "UNIQUE constraint failed: seen.id"),
        acme_seen, [SqlInsert acme_uid false])
  /\ count_occ string_dec (rows (db acme_seen)) acme_uid = 1.
Proof.
  destruct (insert_twice fresh acme_uid eq_refl) as (H1 & H2 & H3 & _).
  exact (conj H1 (conj H2 H3)).
Defined.

(** Inserting a fingerprint the table holds is an error, not a no-op. *)
Lemma insert_present_is_error :
  contains acme_uid (db acme_seen) = true
  /\ mark_seen acme_uid acme_seen
     = (Raise (IntegrityError "UNIQUE constraint failed: seen.id"),
        acme_seen, [SqlInsert acme_uid false]).
Proof. split; reflexivity. Qed.



(** ** [fetch_listings] *)

Section Fetch.

Variable rt : runtime.
Variable w : world.



Lemma fetch_from_cons (url : string) (urls : list string)
    (results : list listing) (st : state) :
  fetch_from rt w (url :: urls) results st
  = match fetch_one rt w url results st with
    | (Ok results', s1, t1) =>
        let '(r, s2, t2) := fetch_from rt w urls results' s1 in
        (r, s2, (t1 ++ t2)%list)
    | (Raise e, s1, t1) => (Raise e, s1, t1)
    end.
Proof. reflexivity. Qed.




End Fetch.




(** ** The main loop *)

Section Loop.

Variable rt : runtime.
Variable w : world.

(** One iteration of the [while True] loop, by what the cycle did. *)
Lemma poll_loop_S (fuel : nat) (st : state) :
  poll_loop rt w (S fuel) st
  = match check_for_new_jobs rt w st with
    | (Ok _, s1, t1) => resume rt w fuel s1 t1
    | (Raise KeyboardInterrupt, s1, t1) =>
        (Ok true, s1, (t1 ++ [Print (nl ++ "Shutting down Opportuna...")])%list)
    | (Raise e, s1, t1) =>
        resume rt w fuel s1
          (t1 ++ [Print ("Error while checking jobs: " ++ str_exn e)])%list
    end.
Proof.
  cbn [poll_loop]. rewrite bind_run, try_except_run, bind_run.
  assert (Hresume : forall s1 t1,
    (let '(r, s2, t2) :=
       (print ("Sleeping for " ++ py_str rt (VInt CHECK_INTERVAL_MINUTES)
               ++ " minutes..." ++ nl) ;;;
        sleep w (CHECK_INTERVAL_MINUTES * 60) ;;; poll_loop rt w fuel) s1 in
     (r, s2, (t1 ++ t2)%list)) = resume rt w fuel s1 t1).
  { intros s1 t1. unfold resume. rewrite bind_run. unfold print, emit.
    cbv beta iota zeta. rewrite bind_run. unfold sleep.
    destruct (sleep_interrupted w (clock s1)).
    - reflexivity.
    - cbv beta iota zeta.
      destruct (poll_loop rt w fuel (tick s1)) as [[r s2] t2]. reflexivity. }
  destruct (check_for_new_jobs rt w st) as [[[[]|e] s1] t1].
  - cbv beta iota zeta. unfold ret at 1. cbv beta iota zeta.
    rewrite app_nil_r. apply Hresume.
  - destruct e; cbv beta iota zeta delta [is_Exception];
      try (rewrite bind_run; unfold print at 1; unfold emit, ret at 1;
           cbv beta iota zeta; rewrite <- (Hresume s1); reflexivity).
    rewrite bind_run. unfold print, emit, ret. cbv beta iota zeta.
    rewrite !app_nil_r. reflexivity.
Qed.

Lemma poll_loop_outcome (fuel : nat) :
  forall st : state,
  exists st' tr,
    poll_loop rt w fuel st = (Ok false, st', tr)
    \/ poll_loop rt w fuel st
       = (Ok true, st', (tr ++ [Print (nl ++ "Shutting down Opportuna...")])%list)
    \/ poll_loop rt w fuel st = (Raise KeyboardInterrupt, st', tr).
Proof.
  induction fuel as [|fuel IH]; intro st.
  - exists st, []. left. reflexivity.
  - assert (Hresume : forall s1 t1, exists st' tr,
              resume rt w fuel s1 t1 = (Ok false, st', tr)
              \/ resume rt w fuel s1 t1
                 = (Ok true, st',
                    (tr ++ [Print (nl ++ "Shutting down Opportuna...")])%list)
              \/ resume rt w fuel s1 t1 = (Raise KeyboardInterrupt, st', tr)).
    { intros s1 t1. unfold resume. destruct (sleep_interrupted w (clock s1)).
      - eexists _, _. right. right. reflexivity.
      - destruct (IH (tick s1)) as (st' & tr & [E|[E|E]]); rewrite E.
        + eexists _, _. left. reflexivity.
        + exists st', (t1 ++ nap rt ++ tr)%list. right. left.
          rewrite <- !app_assoc. reflexivity.
        + eexists _, _. right. right. reflexivity. }
    rewrite poll_loop_S.
    destruct (check_for_new_jobs rt w st) as [[[[]|e] s1] t1].
    + apply Hresume.
    + destruct e; try apply Hresume.
      exists s1, t1. right. left. reflexivity.
Qed.

End Loop.

(** *** Without Ctrl+C *)

Lemma calm_ret {A} (a : A) : calm (ret a).
Proof. intros st. discriminate. Qed.

Lemma calm_print (line : string) : calm (print line).
Proof. intros st. discriminate. Qed.

Lemma calm_lift {A} (r : result A) :
  r <> Raise KeyboardInterrupt -> calm (lift r).
Proof. intros H st. exact H. Qed.

Lemma calm_bind {A B} (m : M A) (f : A -> M B) :
  calm m -> (forall a, calm (f a)) -> calm (bind m f).
Proof.
  intros Hm Hf st. rewrite bind_run. specialize (Hm st).
  destruct (m st) as [[[a|e] s1] t1]; simpl in Hm.
  - specialize (Hf a s1). destruct (f a s1) as [[r s2] t2]. exact Hf.
  - simpl. intros [= ->]. apply Hm. reflexivity.
Qed.

Lemma calm_try_except {A} (m : M A) (handler : exn -> option (M A)) :
  calm m -> (forall e h, handler e = Some h -> calm h) ->
  calm (try_except m handler).
Proof.
  intros Hm Hh st. rewrite try_except_run. specialize (Hm st).
  destruct (m st) as [[[a|e] s1] t1]; simpl in Hm.
  - discriminate.
  - destruct (handler e) as [h|] eqn:E; [|exact Hm].
    specialize (Hh e h E s1). destruct (h s1) as [[r s2] t2]. exact Hh.
Qed.

Lemma calm_for_each {A} (xs : list A) (body : A -> M unit) :
  (forall x, calm (body x)) -> calm (for_each xs body).
Proof.
  intro Hb. induction xs as [|x xs IH]; cbn [for_each].
  - apply calm_ret.
  - apply calm_bind; [apply Hb | intros _; exact IH].
Qed.

Lemma join_not_interrupt (sep : string) (xs : list value) :
  join sep xs <> Raise KeyboardInterrupt.
Proof. unfold join. destruct (strings_of xs); discriminate. Qed.

Lemma location_str_not_interrupt (l : listing) :
  location_str l <> Raise KeyboardInterrupt.
Proof.
  unfold location_str. destruct (truthy _ && is_list _);
    [apply join_not_interrupt | discriminate].
Qed.

Lemma rbind_not_interrupt {A B} (r : result A) (f : A -> result B) :
  r <> Raise KeyboardInterrupt -> (forall a, f a <> Raise KeyboardInterrupt) ->
  rbind r f <> Raise KeyboardInterrupt.
Proof.
  intros Hr Hf. destruct r as [a|e]; simpl.
  - apply Hf.
  - intros [= ->]. apply Hr. reflexivity.
Qed.

Lemma term_str_not_interrupt (l : listing) :
  term_str l <> Raise KeyboardInterrupt.
Proof.
  unfold term_str. destruct (truthy _ && is_list _).
  - apply rbind_not_interrupt; [apply join_not_interrupt | discriminate].
  - destruct (truthy (get l "season")); discriminate.
Qed.

Section Uninterrupted.

Variable rt : runtime.
Variable w : world.
Hypothesis quiet : uninterrupted rt w.

Lemma alert_not_interrupt (l : listing) : alert rt l <> Raise KeyboardInterrupt.
Proof.
  destruct quiet as (Hts & _). unfold alert.
  apply rbind_not_interrupt; [apply location_str_not_interrupt|]. intros shown.
  apply rbind_not_interrupt.
  - destruct (truthy (get l "date_posted")); [|discriminate].
    apply rbind_not_interrupt; [apply Hts | discriminate].
  - intros date. apply rbind_not_interrupt; [apply term_str_not_interrupt|].
    discriminate.
Qed.

Lemma notion_data_not_interrupt (l : listing) :
  notion_data rt w l <> Raise KeyboardInterrupt.
Proof.
  destruct quiet as (Hts & _). unfold notion_data.
  apply rbind_not_interrupt; [apply location_str_not_interrupt|]. intros shown.
  apply rbind_not_interrupt.
  - destruct (truthy (get l "date_posted")); [|discriminate].
    apply rbind_not_interrupt; [apply Hts | discriminate].
  - intros date. apply rbind_not_interrupt; [apply term_str_not_interrupt|].
    discriminate.
Qed.

Lemma calm_add_to_notion (l : listing) : calm (add_to_notion rt w l).
Proof.
  destruct quiet as (_ & _ & _ & _ & Hpost & _).
  intros st. rewrite add_to_notion_run.
  pose proof (notion_data_not_interrupt l) as Hd.
  destruct (notion_data rt w l) as [page|e];
    [|simpl; intros [= ->]; apply Hd; reflexivity].
  pose proof (Hpost (clock st) NOTION_URL page) as Hp.
  destruct (requests_post w (clock st) NOTION_URL page);
    [discriminate | simpl; intros [= ->]; apply Hp; reflexivity].
Qed.

Lemma calm_sql_insert (uid : string) : calm (sql_insert uid).
Proof. intros st. unfold sql_insert. destruct (contains uid (db st)); discriminate. Qed.

Lemma calm_process_listing (l : listing) : calm (process_listing rt w l).
Proof.
  destruct quiet as (_ & _ & _ & Hsmtp & _).
  unfold process_listing. destruct (not_uid (get_unique_id rt l)).
  - apply calm_print.
  - apply calm_bind; [intros st; discriminate|]. intros found.
    destruct (negb found); [|apply calm_print].
    apply calm_bind; [apply calm_print|]. intros _.
    apply calm_bind; [apply calm_lift, alert_not_interrupt|]. intros [subject body].
    apply calm_try_except.
    + apply calm_bind.
      { intros st. unfold send_email.
        pose proof (Hsmtp (clock st) (FROM_EMAIL w) (EMAIL_PASSWORD w)
                      (mime_text w subject body)) as H.
        exact H. }
      intros _. apply calm_bind; [apply calm_print|]. intros _.
      apply calm_bind; [apply calm_add_to_notion|]. intros _.
      apply calm_bind; [apply calm_sql_insert|]. intros _.
      intros st. discriminate.
    + intros e h. destruct (is_Exception e); [|discriminate].
      intros [= <-]. apply calm_print.
Qed.

Lemma calm_fetch_from (urls : list string) :
  forall results : list listing, calm (fetch_from rt w urls results).
Proof.
  destruct quiet as (_ & Hget & Hjson & _).
  induction urls as [|url urls IH]; intros results st.
  - discriminate.
  - rewrite fetch_from_cons.
    assert (H1 : fst (fst (fetch_one rt w url results st)) <> Raise KeyboardInterrupt).
    { unfold fetch_one. rewrite try_except_run, bind_run. unfold http_get.
      pose proof (Hget (clock st) url) as Hg. pose proof (Hjson (clock st) url) as Hj.
      destruct (requests_get w (clock st) url) as [resp|e].
      - cbv beta iota zeta. rewrite bind_run. unfold lift at 1.
        unfold raise_for_status.
        destruct ((400 <=? status_code resp)%Z && (status_code resp <? 500)%Z);
          [discriminate|].
        destruct ((500 <=? status_code resp)%Z && (status_code resp <? 600)%Z);
          [discriminate|].
        cbv beta iota zeta. rewrite bind_run. unfold lift.
        specialize (Hj resp eq_refl).
        destruct (json resp) as [more|e]; [discriminate|].
        destruct e; try discriminate. contradiction.
      - destruct e; try discriminate. contradiction. }
    destruct (fetch_one rt w url results st) as [[[results'|e] s1] t1].
    + specialize (IH results' s1).
      destruct (fetch_from rt w urls results' s1) as [[r s2] t2]. exact IH.
    + exact H1.
Qed.

Lemma calm_check_for_new_jobs : calm (check_for_new_jobs rt w).
Proof.
  unfold check_for_new_jobs. apply calm_bind; [apply calm_fetch_from|].
  intros listings. apply calm_bind; [apply calm_print|]. intros _.
  apply calm_for_each. apply calm_process_listing.
Qed.

(** Without Ctrl+C the loop is still running after any number of
    iterations. *)
Lemma poll_loop_runs_on (fuel : nat) :
  forall st : state, exists st' tr, poll_loop rt w fuel st = (Ok false, st', tr).
Proof.
  induction fuel as [|fuel IH]; intro st.
  - exists st, []. reflexivity.
  - assert (Hresume : forall s1 t1, exists st' tr,
              resume rt w fuel s1 t1 = (Ok false, st', tr)).
    { intros s1 t1. unfold resume.
      destruct quiet as (_ & _ & _ & _ & _ & Hsleep). rewrite Hsleep.
      destruct (IH (tick s1)) as (st' & tr & ->). eauto. }
    rewrite poll_loop_S. pose proof (calm_check_for_new_jobs st) as Hc.
    destruct (check_for_new_jobs rt w st) as [[[[]|e] s1] t1]; [apply Hresume|].
    destruct e; try apply Hresume. exfalso. apply Hc. reflexivity.
Qed.

End Uninterrupted.

(** C9. An exception ([Exception], not Ctrl+C) that leaves
    [check_for_new_jobs] is caught by the main loop and printed, the loop
    sleeps and goes on with the next cycle.  Whatever happens, the loop is
    either still running, or was left through the [except KeyboardInterrupt]
    clause, or was cut by Ctrl+C during the sleep: no other exception ever
    leaves it.  When no Ctrl+C arrives, the loop is still running after any
    number of iterations. *)
Theorem poll_loop_contains_errors (rt : runtime) (w : world) :
  (forall (fuel : nat) (st st1 : state) (e : exn) (tr1 : list event),
      check_for_new_jobs rt w st = (Raise e, st1, tr1) ->
      is_Exception e = true ->
      sleep_interrupted w (clock st1) = false ->
      exists r st' tr',
        poll_loop rt w fuel (tick st1) = (r, st', tr')
        /\ poll_loop rt w (S fuel) st
           = (r, st',
              (tr1 ++ [Print ("Error while checking jobs: " ++ str_exn e)]
               ++ nap rt ++ tr')%list))
  /\ (forall (fuel : nat) (st : state),
         exists st' tr,
           poll_loop rt w fuel st = (Ok false, st', tr)
           \/ poll_loop rt w fuel st
              = (Ok true, st',
                 (tr ++ [Print (nl ++ "Shutting down Opportuna...")])%list)
           \/ poll_loop rt w fuel st = (Raise KeyboardInterrupt, st', tr))
  /\ (uninterrupted rt w ->
      forall (fuel : nat) (st : state),
        exists st' tr, poll_loop rt w fuel st = (Ok false, st', tr)).
Proof.
  split; [|split].
  - intros fuel st st1 e tr1 Hcheck He Hsleep.
    destruct (poll_loop rt w fuel (tick st1)) as [[r st'] tr'] eqn:E.
    exists r, st', tr'. split; [reflexivity|].
    rewrite poll_loop_S, Hcheck. unfold resume. rewrite Hsleep, E.
    destruct e; try discriminate He; rewrite <- !app_assoc; reflexivity.
  - intros fuel st. apply poll_loop_outcome.
  - intros quiet fuel st. apply poll_loop_runs_on. exact quiet.
Qed.

Lemma calm_world_uninterrupted : uninterrupted scenario_runtime calm_world.
Proof.
  unfold uninterrupted.
  repeat match goal with |- _ /\ _ => split end;
    try (intros; simpl; discriminate).
  - intros n url. simpl. destruct (url =? _); discriminate.
  - intros n url resp H. simpl in H.
    destruct (url =? _) in H; injection H as <-; discriminate.
  - reflexivity.
Qed.

Lemma poll_loop_witness :
  (exists r st' tr',
      poll_loop scenario_runtime garbled_world 1 (tick (tick fresh)) = (r, st', tr')
      /\ poll_loop scenario_runtime garbled_world 2 fresh
         = (r, st',
            ([HttpGet (nth 0 JSON_URLS "")]
             ++ [Print "Error while checking jobs: Expecting value"]
             ++ nap scenario_runtime ++ tr')%list))
  /\ (exists st' tr,
         poll_loop scenario_runtime calm_world 3 fresh = (Ok false, st', tr)).
Proof.
  split.
  - apply (proj1 (poll_loop_contains_errors scenario_runtime garbled_world)
             1 fresh (tick fresh) (OtherException "Expecting value")
             [HttpGet (nth 0 JSON_URLS "")]);
      reflexivity.
  - apply (proj2 (proj2 (poll_loop_contains_errors scenario_runtime calm_world))
             calm_world_uninterrupted).
Defined.

(** Ctrl+C during a cycle ends the loop through its [break]. *)
Example poll_loop_interrupted :
  poll_loop scenario_runtime interrupted_world 3 fresh
  = (Ok true, tick fresh,
     [HttpGet (nth 0 JSON_URLS ""); Print (nl ++ "Shutting down Opportuna...")]).
Proof. reflexivity. Qed.

(** ** The primary key of [seen] *)

Lemma guarded_app (a b : list event) :
  guarded a -> guarded b -> guarded (a ++ b).
Proof.
  intros Ha Hb. induction Ha as [|uid found tr _ IH|uid tr _ IH]; simpl.
  - exact Hb.
  - apply guarded_lookup. exact IH.
  - apply guarded_insert. exact IH.
Qed.

(** In a guarded trace every insert is accepted, follows the lookup that
    missed its fingerprint, and is followed by its commit. *)
Lemma guarded_insert_inv (tr : list event) :
  guarded tr ->
  forall pre uid accepted post,
    tr = (pre ++ SqlInsert uid accepted :: post)%list ->
    accepted = true
    /\ (exists pre', pre = (pre' ++ [SqlSelect uid false])%list)
    /\ (exists post', post = SqlCommit :: post').
Proof.
  induction 1 as [|u found tr _ IH|u tr _ IH]; intros pre uid accepted post E.
  - destruct pre; discriminate.
  - destruct pre as [|e pre]; [discriminate|].
    injection E as <- E.
    destruct (IH _ _ _ _ E) as (Ha & (pre' & ->) & Hpost).
    split; [exact Ha|]. split; [|exact Hpost].
    exists (SqlSelect u found :: pre'). reflexivity.
  - destruct pre as [|e1 [|e2 [|e3 pre]]]; try discriminate.
    + injection E as <- <- <- <-.
      split; [reflexivity|]. split; [exists []; reflexivity | eauto].
    + injection E as <- <- <- E.
      destruct (IH _ _ _ _ E) as (Ha & (pre' & ->) & Hpost).
      split; [exact Ha|]. split; [|exact Hpost].
      exists (SqlSelect u false :: SqlInsert u true :: SqlCommit :: pre').
      reflexivity.
Qed.

Lemma NoDup_snoc (uid : string) (table : list string) :
  NoDup table -> ~ In uid table -> NoDup (table ++ [uid]).
Proof.
  induction table as [|x table IH]; intros Hnd Hin; simpl.
  - constructor; [intros []|constructor].
  - inversion Hnd as [|? ? Hx Hnd']; subst. constructor.
    + intro H. apply in_app_or in H as [H|[H|[]]]; [contradiction|].
      subst. apply Hin. left. reflexivity.
    + apply IH; [exact Hnd'|]. intro H. apply Hin. right. exact H.
Qed.

Lemma silent_tidy {A} (st : state) (out : result A * state * list event) :
  silent st out -> tidy st out.
Proof.
  intros [Hsql Hdb]. split.
  - rewrite Hsql. constructor.
  - rewrite Hdb. auto.
Qed.

Lemma tidy_bind {A B} (m : M A) (f : A -> M B) (st : state) :
  tidy st (m st) -> (forall a s1, tidy s1 (f a s1)) -> tidy st (bind m f st).
Proof.
  intros [Hg Hn] Hf. rewrite bind_run.
  destruct (m st) as [[[a|e] s1] t1]; simpl in Hg, Hn.
  - destruct (Hf a s1) as [Hg2 Hn2].
    destruct (f a s1) as [[r s2] t2]. unfold tidy. simpl in *. split.
    + unfold sql_events in *. rewrite filter_app. apply guarded_app; assumption.
    + auto.
  - split; assumption.
Qed.

Section Guarded.

Variable rt : runtime.
Variable w : world.

Lemma fetch_one_silent (url : string) (results : list listing) (st : state) :
  silent st (fetch_one rt w url results st).
Proof.
  unfold fetch_one, silent.
  rewrite try_except_run, bind_run. unfold http_get.
  destruct (requests_get w (clock st) url) as [resp|e].
  - cbv beta iota zeta. rewrite bind_run. unfold lift at 1.
    destruct (raise_for_status rt url resp) as [[]|e].
    + cbv beta iota zeta. rewrite bind_run. unfold lift.
      destruct (json resp) as [more|e].
      * split; reflexivity.
      * destruct e; split; reflexivity.
    + destruct e; split; reflexivity.
  - destruct e; split; reflexivity.
Qed.

Lemma fetch_from_silent (urls : list string) :
  forall (results : list listing) (st : state),
    silent st (fetch_from rt w urls results st).
Proof.
  induction urls as [|url urls IH]; intros results st.
  - split; reflexivity.
  - rewrite fetch_from_cons.
    destruct (fetch_one_silent url results st) as [Hs Hd].
    destruct (fetch_one rt w url results st) as [[[results'|e] s1] t1];
      simpl in Hs, Hd.
    + destruct (IH results' s1) as [Hs2 Hd2].
      destruct (fetch_from rt w urls results' s1) as [[r s2] t2].
      unfold silent. simpl in *. split.
      * unfold sql_events in *. rewrite filter_app, Hs, Hs2. reflexivity.
      * congruence.
    + split; assumption.
Qed.

Lemma process_listing_tidy (l : listing) (st : state) :
  tidy st (process_listing rt w l st).
Proof.
  destruct (get_unique_id rt l) as [uid|] eqn:Hid.
  2:{ rewrite (process_listing_invalid rt w l st Hid).
      apply silent_tidy. split; reflexivity. }
  destruct (contains uid (db st)) eqn:Hc.
  { rewrite (process_listing_seen rt w l uid st Hid Hc). split.
    - simpl. repeat constructor.
    - auto. }
  destruct (alert rt l) as [[subject body]|e] eqn:Ha.
  2:{ rewrite (process_listing_alert_raises rt w l uid st e Hid Hc Ha). split.
      - simpl. repeat constructor.
      - auto. }
  rewrite (process_listing_new rt w l uid subject body st Hid Hc Ha).
  rewrite try_except_run, (deliver_run rt w l uid subject body st Hc). cbv zeta.
  assert (Hquiet : forall (e : exn) (s1 : state) (t1 : list event),
            db s1 = db st -> sql_events t1 = [] ->
            tidy st
              (let '(r, st', tr) :=
                 match deliver_failed uid e with
                 | Some h => let '(r, s2, t2) := h s1 in (r, s2, (t1 ++ t2)%list)
                 | None => (Raise e, s1, t1)
                 end in
               (r, st', SqlSelect uid false
                        :: Print ("New listing found: " ++ uid) :: tr))).
  { intros e s1 t1 Hdb Hsql. unfold deliver_failed.
    destruct (is_Exception e); split; simpl;
      unfold sql_events in *; rewrite ?filter_app, ?Hsql; simpl;
      try (repeat constructor); rewrite ?Hdb; auto. }
  destruct (smtp_send w _ _ _ _) as [[]|e1]; [|apply Hquiet; reflexivity].
  destruct (notion_data rt w l) as [page|e2]; [|apply Hquiet; reflexivity].
  destruct (requests_post w _ _ _) as [resp|e3]; [|apply Hquiet; reflexivity].
  split.
  - simpl. apply guarded_insert. constructor.
  - simpl. intro Hn. apply NoDup_snoc; [exact Hn|].
    apply contains_not_In. exact Hc.
Qed.

Lemma for_each_tidy (listings : list listing) :
  forall st : state, tidy st (for_each listings (process_listing rt w) st).
Proof.
  induction listings as [|l listings IH]; intro st.
  - apply silent_tidy. split; reflexivity.
  - cbn [for_each]. apply tidy_bind.
    + apply process_listing_tidy.
    + intros _ s1. apply IH.
Qed.

Lemma check_for_new_jobs_tidy (st : state) :
  tidy st (check_for_new_jobs rt w st).
Proof.
  unfold check_for_new_jobs. apply tidy_bind.
  - apply silent_tidy. apply fetch_from_silent.
  - intros listings s1. apply tidy_bind.
    + apply silent_tidy. split; reflexivity.
    + intros _ s2. apply for_each_tidy.
Qed.

End Guarded.

(** C10. In any run of [check_for_new_jobs], from any state of the table,
    every [INSERT] comes right after the [SELECT] that found no row for the
    same fingerprint and right before its [commit], with no other SQL
    statement in between, and every [INSERT] is accepted: the primary key
    never rejects one.  The rows of the table stay distinct. *)
Theorem inserts_are_guarded (rt : runtime) (w : world) (st : state) :
  (forall pre uid accepted post,
      sql_events (snd (check_for_new_jobs rt w st))
      = (pre ++ SqlInsert uid accepted :: post)%list ->
      accepted = true
      /\ (exists pre', pre = (pre' ++ [SqlSelect uid false])%list)
      /\ (exists post', post = SqlCommit :: post'))
  /\ (NoDup (rows (db st)) ->
      NoDup (rows (db (snd (fst (check_for_new_jobs rt w st)))))).
Proof.
  destruct (check_for_new_jobs_tidy rt w st) as [Hg Hn]. split.
  - intros pre uid accepted post E.
    exact (guarded_insert_inv _ Hg pre uid accepted post E).
  - exact Hn.
Qed.

(** A cycle in the calm world: the posting that both feeds carry is
    delivered once, and the second cycle delivers nothing. *)
Example calm_cycle_sql :
  sql_events (snd (check_for_new_jobs scenario_runtime calm_world fresh))
  = [ SqlSelect acme_uid false; SqlInsert acme_uid true; SqlCommit;
      SqlSelect acme_uid true;
      SqlSelect globex_uid false; SqlInsert globex_uid true; SqlCommit ].
Proof. reflexivity. Qed.

Example calm_second_cycle_sql :
  sql_events
    (snd (check_for_new_jobs scenario_runtime calm_world
            (snd (fst (check_for_new_jobs scenario_runtime calm_world fresh)))))
  = [ SqlSelect acme_uid true; SqlSelect acme_uid true; SqlSelect globex_uid true ].
Proof. reflexivity. Qed.

Lemma inserts_are_guarded_witness :
  true = true
  /\ (exists pre',
         [ SqlSelect acme_uid false; SqlInsert acme_uid true; SqlCommit;
           SqlSelect acme_uid true; SqlSelect globex_uid false ]
         = (pre' ++ [SqlSelect globex_uid false])%list)
  /\ (exists post', [SqlCommit] = SqlCommit :: post').
Proof.
  apply (proj1 (inserts_are_guarded scenario_runtime calm_world fresh)
           [ SqlSelect acme_uid false; SqlInsert acme_uid true; SqlCommit;
             SqlSelect acme_uid true; SqlSelect globex_uid false ]
           globex_uid true [SqlCommit]).
  reflexivity.
Defined.

(** * Further properties *)

(** ** The requests of [fetch_listings] *)

Lemma http_urls_app (a b : list event) :
  http_urls (a ++ b) = (http_urls a ++ http_urls b)%list.
Proof.
  induction a as [|ev a IH]; [reflexivity|].
  destruct ev; simpl; rewrite IH; reflexivity.
Qed.

Section Requests.

Variable rt : runtime.
Variable w : world.

(** One turn of the loop makes one request, prints at most a line, and
    raises nothing that is a [RequestException]. *)
Lemma fetch_one_shape (url : string) (results : list listing) (st : state) :
  exists r t,
    fetch_one rt w url results st = (r, tick st, HttpGet url :: t)
    /\ http_urls t = []
    /\ Forall (fun ev => outward ev = false) t
    /\ forall e, r = Raise e -> is_RequestException e = false.
Proof.
  unfold fetch_one. rewrite try_except_run, bind_run. unfold http_get.
  destruct (requests_get w (clock st) url) as [resp|e].
  - cbv beta iota zeta. rewrite bind_run. unfold lift at 1.
    destruct (raise_for_status rt url resp) as [[]|e] eqn:Es.
    + cbv beta iota zeta. rewrite bind_run. unfold lift.
      destruct (json resp) as [more|e].
      * eexists _, []. repeat split; [constructor | discriminate].
      * destruct (is_RequestException e) eqn:Ee.
        -- eexists _, [_]. repeat split; [repeat constructor | discriminate].
        -- eexists _, []. repeat split; [constructor|]. intros e' [= <-]. exact Ee.
    + destruct (is_RequestException e) eqn:Ee.
      * eexists _, [_]. repeat split; [repeat constructor | discriminate].
      * eexists _, []. repeat split; [constructor|]. intros e' [= <-]. exact Ee.
  - destruct (is_RequestException e) eqn:Ee.
    + eexists _, [_]. repeat split; [repeat constructor | discriminate].
    + eexists _, []. repeat split; [constructor|]. intros e' [= <-]. exact Ee.
Qed.

Lemma fetch_from_shape (urls : list string) :
  forall (results : list listing) (st : state),
    Forall (fun ev => outward ev = false) (snd (fetch_from rt w urls results st))
    /\ (exists rest,
           urls = (http_urls (snd (fetch_from rt w urls results st)) ++ rest)%list
           /\ forall listings,
                fst (fst (fetch_from rt w urls results st)) = Ok listings ->
                rest = [])
    /\ forall e,
         fst (fst (fetch_from rt w urls results st)) = Raise e ->
         is_RequestException e = false.
Proof.
  induction urls as [|url urls IH]; intros results st.
  - simpl. split; [constructor|]. split; [|discriminate].
    exists []. split; [reflexivity | reflexivity].
  - rewrite fetch_from_cons.
    destruct (fetch_one_shape url results st) as (r & t & E & Hu & Hq & He).
    rewrite E. destruct r as [results'|e].
    + destruct (IH results' (tick st)) as (Hq2 & (rest & Hrest & Hdone) & He2).
      destruct (fetch_from rt w urls results' (tick st)) as [[r s2] t2].
      simpl in *. split; [|split].
      * constructor; [reflexivity|]. apply Forall_app. split; assumption.
      * exists rest. rewrite http_urls_app, Hu. simpl. split; [|exact Hdone].
        f_equal. exact Hrest.
      * exact He2.
    + simpl. split; [|split].
      * constructor; [reflexivity | exact Hq].
      * exists urls. rewrite Hu. split; [reflexivity | discriminate].
      * intros e' [= <-]. apply He. reflexivity.
Qed.

Lemma fetch_from_quiet (urls : list string) (results : list listing) (st : state) :
  Forall (fun ev => outward ev = false) (snd (fetch_from rt w urls results st)).
Proof. apply fetch_from_shape. Qed.

End Requests.

(** X4. [fetch_listings] never raises a [RequestException], whatever the
    sources answer: every exception of that class that [requests.get],
    [raise_for_status] or [resp.json()] raises is caught by its [except]
    clause. *)
Theorem fetch_listings_never_raises_RequestException
    (rt : runtime) (w : world) (st : state) (msg : string) :
  fst (fst (fetch_listings rt w st)) <> Raise (RequestException msg).
Proof.
  intro H.
  destruct (fetch_from_shape rt w JSON_URLS [] st) as (_ & _ & He).
  specialize (He (RequestException msg) H). discriminate He.
Qed.

(** X5. [fetch_listings] requests the sources in the order of [JSON_URLS]
    and each at most once in a cycle: the URLs it has requested are an
    initial part of [JSON_URLS], all of it when it returns. *)
Theorem fetch_listings_requests_once (rt : runtime) (w : world) (st : state) :
  exists rest,
    JSON_URLS = (http_urls (snd (fetch_listings rt w st)) ++ rest)%list
    /\ forall listings,
         fst (fst (fetch_listings rt w st)) = Ok listings -> rest = [].
Proof.
  destruct (fetch_from_shape rt w JSON_URLS [] st) as (_ & H & _). exact H.
Qed.

(** ** The loop body, case by case *)

(** What [process_listing] does, by what the listing holds, what the table
    holds and what the services answer. *)
Lemma process_listing_run (rt : runtime) (w : world) (l : listing) (st : state) :
  process_listing rt w l st
  = match get_unique_id rt l with
    | None =>
        (Ok tt, st, [Print ("Skipping invalid listing: " ++ py_str rt (VDict l))])
    | Some uid =>
        if contains uid (db st)
        then (Ok tt, st, [SqlSelect uid true; Print ("Already seen: " ++ uid)])
        else
          match alert rt l with
          | Raise e =>
              (Raise e, st,
               [SqlSelect uid false; Print ("New listing found: " ++ uid)])
          | Ok (subject, body) =>
              let msg := mime_text w subject body in
              after_lookup uid
                match smtp_send w (clock st) (FROM_EMAIL w) (EMAIL_PASSWORD w) msg with
                | Raise e => caught uid e (tick st) [Smtp msg]
                | Ok _ =>
                    match notion_data rt w l with
                    | Raise e => caught uid e (tick st) [Smtp msg; sent_line rt l]
                    | Ok page =>
                        match requests_post w (S (clock st)) NOTION_URL page with
                        | Raise e =>
                            caught uid e (tick (tick st))
                              [Smtp msg; sent_line rt l; NotionPost page]
                        | Ok resp =>
                            (Ok tt, marked uid st,
                             [Smtp msg; sent_line rt l; NotionPost page;
                              Print (notion_report rt l resp);
                              SqlInsert uid true; SqlCommit])
                        end
                    end
                end
          end
    end.
Proof.
  destruct (get_unique_id rt l) as [uid|] eqn:Hid.
  2:{ apply process_listing_invalid. exact Hid. }
  destruct (contains uid (db st)) eqn:Hc.
  { apply process_listing_seen; assumption. }
  destruct (alert rt l) as [[subject body]|e] eqn:Ha.
  2:{ apply process_listing_alert_raises; assumption. }
  rewrite (process_listing_new rt w l uid subject body st Hid Hc Ha).
  rewrite try_except_run, (deliver_run rt w l uid subject body st Hc). cbv zeta.
  unfold sent_line, after_lookup, caught, deliver_failed.
  destruct (smtp_send w _ _ _ _) as [[]|e1].
  - destruct (notion_data rt w l) as [page|e2].
    + destruct (requests_post w _ _ _) as [resp|e3]; [reflexivity|].
      destruct (is_Exception e3); reflexivity.
    + destruct (is_Exception e2); reflexivity.
  - destruct (is_Exception e1); reflexivity.
Qed.

Lemma for_each_app {A} (xs ys : list A) (body : A -> M unit) (st : state) :
  for_each (xs ++ ys) body st
  = match for_each xs body st with
    | (Ok _, s1, t1) =>
        let '(r, s2, t2) := for_each ys body s1 in (r, s2, (t1 ++ t2)%list)
    | (Raise e, s1, t1) => (Raise e, s1, t1)
    end.
Proof.
  revert st. induction xs as [|x xs IH]; intro st.
  - simpl. destruct (for_each ys body st) as [[r s2] t2]. reflexivity.
  - cbn [app for_each]. rewrite !bind_run.
    destruct (body x st) as [[[[]|e] s1] t1]; [|reflexivity].
    rewrite IH.
    destruct (for_each xs body s1) as [[[[]|e] s2] t2]; [|reflexivity].
    destruct (for_each ys body s2) as [[r s3] t3].
    rewrite app_assoc. reflexivity.
Qed.

Lemma for_each_cons {A} (x : A) (xs : list A) (body : A -> M unit) (st : state) :
  for_each (x :: xs) body st
  = match body x st with
    | (Ok _, s1, t1) =>
        let '(r, s2, t2) := for_each xs body s1 in (r, s2, (t1 ++ t2)%list)
    | (Raise e, s1, t1) => (Raise e, s1, t1)
    end.
Proof.
  cbn [for_each]. rewrite bind_run.
  destruct (body x st) as [[[[]|e] s1] t1]; reflexivity.
Qed.

Lemma check_for_new_jobs_run (rt : runtime) (w : world) (st : state) :
  check_for_new_jobs rt w st
  = match fetch_listings rt w st with
    | (Ok listings, s1, t1) =>
        let '(r, s2, t2) := for_each listings (process_listing rt w) s1 in
        (r, s2,
         (t1 ++ Print ("Fetched " ++ py_str rt (VInt (Z.of_nat (length listings)))
                       ++ " listings") :: t2)%list)
    | (Raise e, s1, t1) => (Raise e, s1, t1)
    end.
Proof.
  unfold check_for_new_jobs. rewrite bind_run.
  destruct (fetch_listings rt w st) as [[[listings|e] s1] t1]; [|reflexivity].
  rewrite bind_run. unfold print at 1. unfold emit. cbv beta iota zeta.
  destruct (for_each listings (process_listing rt w) s1) as [[r s2] t2].
  reflexivity.
Qed.

(** A listing leaves the database as it is or marks its own fingerprint,
    which the table did not hold. *)
Lemma process_listing_db (rt : runtime) (w : world) (l : listing) (st : state) :
  db (snd (fst (process_listing rt w l st))) = db st
  \/ exists uid,
       get_unique_id rt l = Some uid /\ contains uid (db st) = false
       /\ fst (fst (process_listing rt w l st)) = Ok tt
       /\ db (snd (fst (process_listing rt w l st))) = db (marked uid st).
Proof.
  rewrite process_listing_run.
  destruct (get_unique_id rt l) as [uid|]; [|left; reflexivity].
  destruct (contains uid (db st)) eqn:Hc; [left; reflexivity|].
  destruct (alert rt l) as [[subject body]|e]; [|left; reflexivity].
  cbv zeta. unfold after_lookup, caught.
  destruct (smtp_send w _ _ _ _) as [[]|e1].
  - destruct (notion_data rt w l) as [page|e2].
    + destruct (requests_post w _ _ _) as [resp|e3].
      * right. exists uid. auto.
      * left. destruct (is_Exception e3); reflexivity.
    + left. destruct (is_Exception e2); reflexivity.
  - left. destruct (is_Exception e1); reflexivity.
Qed.

Lemma fetch_listings_db (rt : runtime) (w : world) (st : state) :
  db (snd (fst (fetch_listings rt w st))) = db st.
Proof. apply (fetch_from_silent rt w JSON_URLS [] st). Qed.

(** ** The table over a cycle *)

Section Cycle.

Variable rt : runtime.
Variable w : world.

Lemma for_each_grows (listings : list listing) :
  forall st : state,
  exists added,
    rows (db (snd (fst (for_each listings (process_listing rt w) st))))
    = (rows (db st) ++ added)%list
    /\ forall uid, In uid added ->
         exists l, In l listings /\ get_unique_id rt l = Some uid.
Proof.
  induction listings as [|l listings IH]; intro st.
  - exists []. split; [simpl; rewrite app_nil_r; reflexivity | intros uid []].
  - rewrite for_each_cons.
    destruct (process_listing_db rt w l st) as [Hdb|(uid & Hid & _ & Hok & Hdb)];
      destruct (process_listing rt w l st) as [[[[]|e] s1] t1]; simpl in *;
      try discriminate.
    + destruct (IH s1) as (added & E & Hadded).
      destruct (for_each listings (process_listing rt w) s1) as [[r s2] t2].
      simpl in *. exists added. rewrite E, Hdb. split; [reflexivity|].
      intros u Hu. destruct (Hadded u Hu) as (l' & Hin & Hl'). eauto.
    + exists []. rewrite Hdb, app_nil_r. split; [reflexivity | intros u []].
    + destruct (IH s1) as (added & E & Hadded).
      destruct (for_each listings (process_listing rt w) s1) as [[r s2] t2].
      simpl in *. exists (uid :: added). rewrite E, Hdb. simpl.
      rewrite <- app_assoc. split; [reflexivity|].
      intros u [<-|Hu]; [eauto|].
      destruct (Hadded u Hu) as (l' & Hin & Hl'). eauto.
Qed.

Lemma for_each_committed (listings : list listing) :
  forall st : state,
    committed (db st) ->
    committed (db (snd (fst (for_each listings (process_listing rt w) st)))).
Proof.
  induction listings as [|l listings IH]; intros st Hc.
  - exact Hc.
  - rewrite for_each_cons.
    assert (H1 : committed (db (snd (fst (process_listing rt w l st))))).
    { destruct (process_listing_db rt w l st) as [Hdb|(uid & _ & _ & _ & Hdb)];
        rewrite Hdb; [exact Hc | reflexivity]. }
    destruct (process_listing rt w l st) as [[[[]|e] s1] t1]; simpl in H1.
    + specialize (IH s1 H1).
      destruct (for_each listings (process_listing rt w) s1) as [[r s2] t2].
      exact IH.
    + exact H1.
Qed.

Lemma for_each_known (listings : list listing) :
  forall st : state,
    (forall l, In l listings -> known rt (db st) l) ->
    exists tr,
      for_each listings (process_listing rt w) st = (Ok tt, st, tr)
      /\ Forall (fun ev => outward ev = false) tr.
Proof.
  induction listings as [|l listings IH]; intros st Hk.
  - exists []. split; [reflexivity | constructor].
  - destruct (IH st (fun l' H => Hk l' (or_intror H))) as (tr & E & Hq).
    rewrite for_each_cons, process_listing_run.
    pose proof (Hk l (or_introl eq_refl)) as Hl. unfold known in Hl.
    destruct (get_unique_id rt l) as [uid|].
    + rewrite Hl, E. eexists. split; [reflexivity|].
      repeat (constructor; [reflexivity|]). exact Hq.
    + rewrite E. eexists. split; [reflexivity|].
      constructor; [reflexivity | exact Hq].
Qed.

End Cycle.

(** X1. Whatever the services answer, a cycle only appends to the table:
    the rows it finds stay in place, in order, and every row it adds is the
    fingerprint of a listing it fetched. *)
Theorem seen_only_grows (rt : runtime) (w : world) (st : state) :
  exists added,
    rows (db (snd (fst (check_for_new_jobs rt w st))))
    = (rows (db st) ++ added)%list
    /\ forall uid, In uid added ->
         exists listings l,
           fst (fst (fetch_listings rt w st)) = Ok listings
           /\ In l listings /\ get_unique_id rt l = Some uid.
Proof.
  rewrite check_for_new_jobs_run.
  pose proof (fetch_listings_db rt w st) as Hdb.
  destruct (fetch_listings rt w st) as [[[listings|e] s1] t1]; simpl in Hdb.
  - destruct (for_each_grows rt w listings s1) as (added & E & Hadded).
    destruct (for_each listings (process_listing rt w) s1) as [[r s2] t2].
    simpl in *. exists added. rewrite E, Hdb. split; [reflexivity|].
    intros uid Hu. destruct (Hadded uid Hu) as (l & Hin & Hl).
    exists listings, l. auto.
  - exists []. simpl. rewrite Hdb, app_nil_r. split; [reflexivity | intros u []].
Qed.

(** X2. A cycle that starts with everything committed ends with everything
    committed, also when it ends with an exception; a process restarted on
    the disk it leaves reads the very table the cycle ended with. *)
Theorem cycle_leaves_table_committed (rt : runtime) (w : world) (st : state) :
  committed (db st) ->
  committed (db (snd (fst (check_for_new_jobs rt w st))))
  /\ startup (disk (db (snd (fst (check_for_new_jobs rt w st)))))
     = db (snd (fst (check_for_new_jobs rt w st))).
Proof.
  intro Hc.
  assert (H : committed (db (snd (fst (check_for_new_jobs rt w st))))).
  { rewrite check_for_new_jobs_run.
    pose proof (fetch_listings_db rt w st) as Hdb.
    destruct (fetch_listings rt w st) as [[[listings|e] s1] t1]; simpl in Hdb.
    - assert (Hc1 : committed (db s1)) by (rewrite Hdb; exact Hc).
      pose proof (for_each_committed rt w listings s1 Hc1) as H.
      destruct (for_each listings (process_listing rt w) s1) as [[r s2] t2].
      exact H.
    - simpl. rewrite Hdb. exact Hc. }
  split; [exact H|].
  unfold committed in H. unfold startup. rewrite H.
  destruct (db (snd (fst (check_for_new_jobs rt w st)))) as [table on_disk].
  simpl in *. rewrite H. reflexivity.
Qed.

Lemma cycle_leaves_table_committed_witness :
  committed (db (snd (fst (check_for_new_jobs scenario_runtime notion_down_world fresh))))
  /\ startup (disk (db (snd (fst (check_for_new_jobs scenario_runtime notion_down_world fresh)))))
     = db (snd (fst (check_for_new_jobs scenario_runtime notion_down_world fresh))).
Proof.
  apply (cycle_leaves_table_committed scenario_runtime notion_down_world fresh).
  reflexivity.
Defined.

(** X3. When every listing a cycle fetched is invalid or has its
    fingerprint in the table, the cycle returns normally, sends no e-mail,
    posts nothing to Notion, executes no insert or commit, and leaves the
    table as it was. *)
Theorem cycle_without_news
    (rt : runtime) (w : world) (st s1 : state)
    (listings : list listing) (t1 : list event) :
  fetch_listings rt w st = (Ok listings, s1, t1) ->
  (forall l, In l listings -> known rt (db st) l) ->
  exists tr,
    check_for_new_jobs rt w st = (Ok tt, s1, tr)
    /\ db s1 = db st
    /\ Forall (fun ev => outward ev = false) tr.
Proof.
  intros Hf Hk.
  pose proof (fetch_listings_db rt w st) as Hdb. rewrite Hf in Hdb. simpl in Hdb.
  assert (Hk1 : forall l, In l listings -> known rt (db s1) l)
    by (rewrite Hdb; exact Hk).
  destruct (for_each_known rt w listings s1 Hk1) as (tr & E & Hq).
  assert (Ht1 : Forall (fun ev => outward ev = false) t1).
  { pose proof (fetch_from_quiet rt w JSON_URLS [] st) as H.
    unfold fetch_listings in Hf. rewrite Hf in H. exact H. }
  rewrite check_for_new_jobs_run, Hf, E. eexists. split; [reflexivity|].
  split; [exact Hdb|].
  apply Forall_app. split; [exact Ht1|].
  constructor; [reflexivity | exact Hq].
Qed.

Lemma cycle_without_news_witness :
  exists tr,
    check_for_new_jobs scenario_runtime calm_world settled
    = (Ok tt, snd (fst (fetch_listings scenario_runtime calm_world settled)), tr)
    /\ db (snd (fst (fetch_listings scenario_runtime calm_world settled))) = db settled
    /\ Forall (fun ev => outward ev = false) tr.
Proof.
  apply (cycle_without_news scenario_runtime calm_world settled
           (snd (fst (fetch_listings scenario_runtime calm_world settled)))
           [acme_listing; acme_listing'; globex_listing]
           (snd (fetch_listings scenario_runtime calm_world settled))).
  - reflexivity.
  - intros l [<-|[<-|[<-|[]]]]; reflexivity.
Defined.

(** ** Delivery of a new listing *)

(** X6. A listing that is not in the table and whose alert could be
    formatted is in the table afterwards exactly when the e-mail was sent
    and the request to Notion returned a response; the status of that
    response plays no part. *)
Theorem marked_iff_delivered
    (rt : runtime) (w : world) (l : listing) (st : state)
    (uid subject body : string) :
  get_unique_id rt l = Some uid -> contains uid (db st) = false ->
  alert rt l = Ok (subject, body) ->
  contains uid (db (snd (fst (process_listing rt w l st)))) = true
  <-> (smtp_send w (clock st) (FROM_EMAIL w) (EMAIL_PASSWORD w)
         (mime_text w subject body) = Ok tt
       /\ exists page resp,
            notion_data rt w l = Ok page
            /\ requests_post w (S (clock st)) NOTION_URL page = Ok resp).
Proof.
  intros Hid Hc Ha. rewrite process_listing_run, Hid, Hc, Ha. cbv zeta.
  unfold after_lookup, caught.
  destruct (smtp_send w _ _ _ _) as [[]|e1] eqn:Es.
  - destruct (notion_data rt w l) as [page|e2] eqn:Ep.
    + destruct (requests_post w (S (clock st)) NOTION_URL page) as [resp|e3] eqn:Er.
      * simpl. split.
        -- intros _. split; [reflexivity|]. exists page, resp. auto.
        -- intros _. apply (contains_inserted uid st).
      * split.
        -- destruct (is_Exception e3); simpl; rewrite Hc; discriminate.
        -- intros (_ & page' & resp & [= <-] & H). rewrite Er in H. discriminate H.
    + split.
      * destruct (is_Exception e2); simpl; rewrite Hc; discriminate.
      * intros (_ & page' & resp & H & _). discriminate H.
  - split.
    + destruct (is_Exception e1); simpl; rewrite Hc; discriminate.
    + intros (H & _). discriminate H.
Qed.

Lemma marked_iff_delivered_witness :
  contains acme_uid
    (db (snd (fst (process_listing scenario_runtime notion_400_world
                     acme_listing fresh)))) = true
  <-> (smtp_send notion_400_world (clock fresh) (FROM_EMAIL notion_400_world)
         (EMAIL_PASSWORD notion_400_world)
         (mime_text notion_400_world (fst acme_alert) (snd acme_alert)) = Ok tt
       /\ exists page resp,
            notion_data scenario_runtime notion_400_world acme_listing = Ok page
            /\ requests_post notion_400_world (S (clock fresh)) NOTION_URL page
               = Ok resp).
Proof.
  apply (marked_iff_delivered scenario_runtime notion_400_world acme_listing fresh
           acme_uid (fst acme_alert) (snd acme_alert));
    reflexivity.
Defined.




(** X8. A listing that passes the validation of [get_unique_id] is never
    skipped: its fingerprint is not the empty string, and the first thing
    the loop body does with it is the lookup of that fingerprint. *)
Theorem valid_listing_is_looked_up
    (rt : runtime) (w : world) (l : listing) (st : state) :
  validated l = true ->
  exists uid tr,
    get_unique_id rt l = Some uid /\ uid <> ""
    /\ snd (process_listing rt w l st)
       = SqlSelect uid (contains uid (db st)) :: tr.
Proof.
  intro Hv. pose proof (get_unique_id_validated rt l Hv) as Hid.
  remember (py_str rt (get l "company_name") ++ "::" ++ py_str rt (get l "title")
            ++ "::" ++ py_str rt (location_of l)) as uid eqn:Euid.
  assert (Hne : uid <> "").
  { pose proof (not_uid_fingerprint rt l uid Hid) as H. simpl in H.
    intros ->. discriminate H. }
  rewrite process_listing_run, Hid. exists uid.
  destruct (contains uid (db st)).
  - eexists. split; [reflexivity|]. split; [exact Hne | reflexivity].
  - destruct (alert rt l) as [[subject body]|e].
    + cbv zeta. unfold after_lookup.
      destruct (match smtp_send w _ _ _ _ with Ok _ => _ | Raise _ => _ end)
        as [[r s] t].
      eexists. split; [reflexivity|]. split; [exact Hne | reflexivity].
    + eexists. split; [reflexivity|]. split; [exact Hne | reflexivity].
Qed.

Lemma valid_listing_is_looked_up_witness :
  exists uid tr,
    get_unique_id scenario_runtime acme_listing = Some uid /\ uid <> ""
    /\ snd (process_listing scenario_runtime calm_world acme_listing fresh)
       = SqlSelect uid (contains uid (db fresh)) :: tr.
Proof.
  apply (valid_listing_is_looked_up scenario_runtime calm_world acme_listing fresh).
  reflexivity.
Defined.

(** ** A listing the alert cannot format *)

Lemma fingerprint_validated (rt : runtime) (l : listing) (uid : string) :
  get_unique_id rt l = Some uid -> validated l = true.
Proof.
  intro H. destruct (validated l) eqn:Hv; [reflexivity|].
  rewrite (get_unique_id_not_validated rt l Hv) in H. discriminate.
Qed.

Lemma alert_raises_on_non_string_location
    (rt : runtime) (l : listing) (uid : string) (xs : list value) :
  get_unique_id rt l = Some uid ->
  get l "locations" = VList xs -> strings_of xs = None ->
  alert rt l = Raise (TypeError (join_error 0 xs)).
Proof.
  intros Hid Hl Hs.
  destruct (validated_fields l (fingerprint_validated rt l uid Hid)) as (_ & _ & Ht).
  unfold alert, location_str. rewrite Ht, Hl. simpl. unfold join. rewrite Hs.
  reflexivity.
Qed.

(** X9. A listing that is not in the table and whose [locations] list holds
    an element that is not a string raises the [TypeError] of [str.join],
    which names that element, before the per-listing [try]: the loop over
    the listings ends there, the listing is not e-mailed and not marked, and
    the listings after it in the feeds are not looked at in this cycle. *)
Theorem malformed_listing_ends_cycle
    (rt : runtime) (w : world) (pre post : list listing) (l : listing)
    (st s1 : state) (t1 : list event) (uid : string) (xs : list value) :
  for_each pre (process_listing rt w) st = (Ok tt, s1, t1) ->
  get_unique_id rt l = Some uid -> contains uid (db s1) = false ->
  get l "locations" = VList xs -> strings_of xs = None ->
  for_each (pre ++ l :: post) (process_listing rt w) st
  = (Raise (TypeError (join_error 0 xs)), s1,
     (t1 ++ [SqlSelect uid false; Print ("New listing found: " ++ uid)])%list).
Proof.
  intros Hpre Hid Hc Hl Hs.
  rewrite for_each_app, Hpre, for_each_cons, process_listing_run, Hid, Hc.
  rewrite (alert_raises_on_non_string_location rt l uid xs Hid Hl Hs).
  reflexivity.
Qed.

Lemma malformed_listing_ends_cycle_witness :
  for_each ([acme_listing] ++ numeric_listing :: [globex_listing])
    (process_listing scenario_runtime calm_world) fresh
  = (Raise (TypeError "sequence item 0: expected str instance, int found"),
     marked acme_uid fresh,
     (snd (process_listing scenario_runtime calm_world acme_listing fresh)
      ++ [SqlSelect "Initech::Intern::7" false;
          Print "New listing found: Initech::Intern::7"])%list).
Proof.
  apply (malformed_listing_ends_cycle scenario_runtime calm_world
           [acme_listing] [globex_listing] numeric_listing fresh
           (marked acme_uid fresh)
           (snd (process_listing scenario_runtime calm_world acme_listing fresh))
           "Initech::Intern::7" [VInt 7]);
    reflexivity.
Defined.

(** The cycle of the main loop then ends with that exception, which the
    loop prints before it sleeps. *)
Example numeric_cycle :
  fst (fst (check_for_new_jobs scenario_runtime numeric_world fresh))
  = Raise (TypeError "sequence item 0: expected str instance, int found")
  /\ sql_events (snd (check_for_new_jobs scenario_runtime numeric_world fresh))
     = [SqlSelect "Initech::Intern::7" false].
Proof. split; reflexivity. Qed.

(** ** E-mails, pages and inserts *)

Lemma count_app (p : event -> bool) (a b : list event) :
  count p (a ++ b) = count p a + count p b.
Proof. unfold count. rewrite filter_app, length_app. reflexivity. Qed.

Lemma count_quiet (p : event -> bool) (tr : list event) :
  (forall ev, p ev = true -> outward ev = true) ->
  Forall (fun ev => outward ev = false) tr -> count p tr = 0.
Proof.
  intros Hp Hq. unfold count. induction Hq as [|ev tr Hev _ IH]; [reflexivity|].
  simpl. destruct (p ev) eqn:E; [|exact IH].
  rewrite (Hp ev E) in Hev. discriminate.
Qed.

Section Counting.

Variable rt : runtime.
Variable w : world.

Lemma process_listing_counts (l : listing) (st : state) :
  count is_insert (snd (process_listing rt w l st))
  <= count is_notion_post (snd (process_listing rt w l st))
  /\ count is_notion_post (snd (process_listing rt w l st))
     <= count is_smtp (snd (process_listing rt w l st)).
Proof.
  rewrite process_listing_run.
  destruct (get_unique_id rt l) as [uid|]; [|unfold count; simpl; lia].
  destruct (contains uid (db st)); [unfold count; simpl; lia|].
  destruct (alert rt l) as [[subject body]|e]; [|unfold count; simpl; lia].
  cbv zeta. unfold after_lookup, caught.
  destruct (smtp_send w _ _ _ _) as [[]|e1].
  - destruct (notion_data rt w l) as [page|e2].
    + destruct (requests_post w _ _ _) as [resp|e3]; [unfold count; simpl; lia|].
      destruct (is_Exception e3); unfold count; simpl; lia.
    + destruct (is_Exception e2); unfold count; simpl; lia.
  - destruct (is_Exception e1); unfold count; simpl; lia.
Qed.

Lemma for_each_counts (listings : list listing) :
  forall st : state,
    count is_insert (snd (for_each listings (process_listing rt w) st))
    <= count is_notion_post (snd (for_each listings (process_listing rt w) st))
    /\ count is_notion_post (snd (for_each listings (process_listing rt w) st))
       <= count is_smtp (snd (for_each listings (process_listing rt w) st)).
Proof.
  induction listings as [|l listings IH]; intro st.
  - unfold count. simpl. lia.
  - rewrite for_each_cons. pose proof (process_listing_counts l st) as H1.
    destruct (process_listing rt w l st) as [[[[]|e] s1] t1]; [|exact H1].
    specialize (IH s1).
    destruct (for_each listings (process_listing rt w) s1) as [[r s2] t2].
    simpl in *. rewrite !count_app. lia.
Qed.

End Counting.

(** Over a whole cycle the trace holds no more inserts than requests to
    Notion and no more requests to Notion than attempts to send an e-mail. *)
Lemma cycle_counts (rt : runtime) (w : world) (st : state) :
  count is_insert (snd (check_for_new_jobs rt w st))
  <= count is_notion_post (snd (check_for_new_jobs rt w st))
  /\ count is_notion_post (snd (check_for_new_jobs rt w st))
     <= count is_smtp (snd (check_for_new_jobs rt w st)).
Proof.
  rewrite check_for_new_jobs_run.
  pose proof (fetch_from_quiet rt w JSON_URLS [] st) as Hq.
  fold (fetch_listings rt w) in Hq.
  assert (H0 : forall p, (forall ev, p ev = true -> outward ev = true) ->
                 count p (snd (fetch_listings rt w st)) = 0)
    by (intros p Hp; apply count_quiet; assumption).
  pose proof (H0 is_insert) as Hi. pose proof (H0 is_notion_post) as Hn.
  pose proof (H0 is_smtp) as Hs.
  assert (Hi' := Hi ltac:(intros []; simpl; congruence)).
  assert (Hn' := Hn ltac:(intros []; simpl; congruence)).
  assert (Hs' := Hs ltac:(intros []; simpl; congruence)).
  clear H0 Hi Hn Hs.
  destruct (fetch_listings rt w st) as [[[listings|e] s1] t1]; simpl in *.
  - pose proof (for_each_counts rt w listings s1) as H.
    destruct (for_each listings (process_listing rt w) s1) as [[r s2] t2].
    simpl in *. rewrite !count_app, Hi', Hn', Hs'.
    change (Print ?x :: t2) with ([Print x] ++ t2)%list.
    rewrite !count_app. unfold count in *. simpl. lia.
  - lia.
Qed.

(** X10. In a turn of the loop a page is posted to Notion only when the
    e-mail of that listing was sent ([send_email] returned), and a
    fingerprint is inserted only when the page of that listing was posted
    and the request returned a response; the fingerprint inserted is the
    listing's own and the insert is accepted. *)
Theorem page_after_email_insert_after_page
    (rt : runtime) (w : world) (l : listing) (st : state) :
  (forall page,
      In (NotionPost page) (snd (process_listing rt w l st)) ->
      notion_data rt w l = Ok page
      /\ exists subject body,
           alert rt l = Ok (subject, body)
           /\ smtp_send w (clock st) (FROM_EMAIL w) (EMAIL_PASSWORD w)
                (mime_text w subject body) = Ok tt
           /\ In (Smtp (mime_text w subject body))
                (snd (process_listing rt w l st)))
  /\ (forall uid accepted,
         In (SqlInsert uid accepted) (snd (process_listing rt w l st)) ->
         get_unique_id rt l = Some uid /\ accepted = true
         /\ exists page resp,
              notion_data rt w l = Ok page
              /\ requests_post w (S (clock st)) NOTION_URL page = Ok resp
              /\ In (NotionPost page) (snd (process_listing rt w l st))).
Proof.
  rewrite process_listing_run.
  destruct (get_unique_id rt l) as [uid|].
  2:{ split; [intros page [H|[]] | intros u a [H|[]]]; discriminate. }
  destruct (contains uid (db st)).
  { split; [intros page [H|[H|[]]] | intros u a [H|[H|[]]]]; discriminate. }
  destruct (alert rt l) as [[subject body]|e].
  2:{ split; [intros page [H|[H|[]]] | intros u a [H|[H|[]]]]; discriminate. }
  cbv zeta. unfold after_lookup, caught, sent_line.
  destruct (smtp_send w _ _ _ _) as [[]|e1] eqn:Es.
  - destruct (notion_data rt w l) as [page|e2] eqn:Ep.
    + destruct (requests_post w (S (clock st)) NOTION_URL page) as [resp|e3] eqn:Er.
      * split.
        -- intros page' H. simpl in H.
           destruct H as [H|[H|[H|[H|[H|[H|[H|[H|[]]]]]]]]]; try discriminate.
           injection H as <-. split; [reflexivity|].
           exists subject, body. split; [reflexivity|]. split; [exact Es|].
           simpl. auto.
        -- intros u a H. simpl in H.
           destruct H as [H|[H|[H|[H|[H|[H|[H|[H|[]]]]]]]]]; try discriminate.
           injection H as <- <-. split; [reflexivity|]. split; [reflexivity|].
           exists page, resp. split; [reflexivity|]. split; [exact Er|].
           simpl. auto 10.
      * split.
        -- intros page' H.
           assert (H' : NotionPost page = NotionPost page').
           { destruct (is_Exception e3); simpl in H;
               repeat (destruct H as [H|H]; try discriminate; try exact H);
               contradiction. }
           injection H' as <-. split; [reflexivity|].
           exists subject, body. split; [reflexivity|]. split; [exact Es|].
           destruct (is_Exception e3); simpl; auto.
        -- intros u a H. exfalso.
           destruct (is_Exception e3); simpl in H;
             repeat (destruct H as [H|H]; try discriminate); contradiction.
    + split.
      * intros page' H. exfalso.
        destruct (is_Exception e2); simpl in H;
          repeat (destruct H as [H|H]; try discriminate); contradiction.
      * intros u a H. exfalso.
        destruct (is_Exception e2); simpl in H;
          repeat (destruct H as [H|H]; try discriminate); contradiction.
  - split.
    + intros page' H. exfalso.
      destruct (is_Exception e1); simpl in H;
        repeat (destruct H as [H|H]; try discriminate); contradiction.
    + intros u a H. exfalso.
      destruct (is_Exception e1); simpl in H;
        repeat (destruct H as [H|H]; try discriminate); contradiction.
Qed.

Lemma page_after_email_insert_after_page_witness :
  notion_data scenario_runtime calm_world acme_listing = Ok acme_page
  /\ exists subject body,
       alert scenario_runtime acme_listing = Ok (subject, body)
       /\ smtp_send calm_world (clock fresh) (FROM_EMAIL calm_world)
            (EMAIL_PASSWORD calm_world) (mime_text calm_world subject body) = Ok tt
       /\ In (Smtp (mime_text calm_world subject body))
            (snd (process_listing scenario_runtime calm_world acme_listing fresh)).
Proof.
  apply (proj1 (page_after_email_insert_after_page scenario_runtime calm_world
                  acme_listing fresh) acme_page).
  simpl. auto 10.
Defined.

(** When the mail server refuses the e-mail, no page is posted and nothing
    is inserted. *)
Example refused_email_posts_nothing :
  count is_smtp (snd (process_listing scenario_runtime no_mail_world acme_listing fresh)) = 1
  /\ count is_notion_post
       (snd (process_listing scenario_runtime no_mail_world acme_listing fresh)) = 0
  /\ count is_insert
       (snd (process_listing scenario_runtime no_mail_world acme_listing fresh)) = 0.
Proof. repeat split. Qed.

(** ** The term of a listing *)

Lemma strings_of_map (ss : list string) : strings_of (map VStr ss) = Some ss.
Proof. induction ss as [|s ss IH]; simpl; [|rewrite IH]; reflexivity. Qed.

Lemma append_assoc (a b c : string) : (a ++ b) ++ c = a ++ b ++ c.
Proof. induction a as [|x a IH]; simpl; [|rewrite IH]; reflexivity. Qed.

(** X11. When [terms] is a non-empty list of strings it is what the
    listing's term is made of, joined with a comma and a space, whether or
    not the listing also has a [season]: that text is the [Term] of the
    Notion page and is on the term line of the e-mail. *)
Theorem terms_win_over_season
    (rt : runtime) (l : listing) (s : string) (ss : list string) :
  get_default l "terms" (VList []) = VList (map VStr (s :: ss)) ->
  term_str l = Ok (VStr (String.concat ", " (s :: ss)))
  /\ (forall (w : world) (page : notion_page),
         notion_data rt w l = Ok page ->
         Term page = VStr (String.concat ", " (s :: ss)))
  /\ (forall subject body : string,
         alert rt l = Ok (subject, body) ->
         exists before rest,
           body = before ++ "📅 Term: " ++ String.concat ", " (s :: ss)
                  ++ nl ++ rest).
Proof.
  intro Ht.
  assert (E : term_str l = Ok (VStr (String.concat ", " (s :: ss)))).
  { unfold term_str. rewrite Ht.
    assert (Hlist : truthy (VList (map VStr (s :: ss)))
                    && is_list (VList (map VStr (s :: ss))) = true) by reflexivity.
    rewrite Hlist. cbn [items]. unfold join.
    rewrite (strings_of_map (s :: ss)). reflexivity. }
  split; [exact E|]. split.
  - intros w page. unfold notion_data, rbind. rewrite E.
    destruct (location_str l); [|discriminate].
    destruct (truthy (get l "date_posted")).
    + destruct (fromtimestamp rt (get l "date_posted")); [|discriminate].
      intros [= <-]. reflexivity.
    + intros [= <-]. reflexivity.
  - intros subject body. unfold alert, rbind. rewrite E.
    destruct (location_str l) as [shown|]; [|discriminate].
    assert (H : forall date : string,
      exists before rest,
        "Reeled in a new internship for you! 🎣" ++ nl ++ nl
        ++ "🏢 Company: " ++ py_str rt (get_default l "company_name" (VStr "N/A")) ++ nl
        ++ "💼 Title: " ++ py_str rt (get_default l "title" (VStr "N/A")) ++ nl
        ++ "📅 Term: " ++ py_str rt (VStr (String.concat ", " (s :: ss))) ++ nl
        ++ "📍 Location(s): " ++ shown ++ nl
        ++ "🗓 Date Posted: " ++ date ++ nl
        ++ "🎫 Sponsorship: " ++ py_str rt (get_default l "sponsorship" (VStr "N/A")) ++ nl
        ++ "🔗 Apply here: " ++ py_str rt (get_default l "url" (VStr "N/A")) ++ nl ++ nl
        ++ "Remember to swim fast, the best opportunities don't wait!" ++ nl
        ++ "Opportuna 🐟"
        = before ++ "📅 Term: " ++ String.concat ", " (s :: ss) ++ nl ++ rest).
    { intro date.
      exists ("Reeled in a new internship for you! 🎣" ++ nl ++ nl
              ++ "🏢 Company: " ++ py_str rt (get_default l "company_name" (VStr "N/A")) ++ nl
              ++ "💼 Title: " ++ py_str rt (get_default l "title" (VStr "N/A")) ++ nl).
      eexists. rewrite !append_assoc. cbn [py_str]. reflexivity. }
    destruct (truthy (get l "date_posted")).
    + destruct (fromtimestamp rt (get l "date_posted")) as [d|]; [|discriminate].
      intro Hb.
      apply (f_equal (fun r => match r with Ok (_, b) => b | Raise _ => "" end)) in Hb.
      cbv beta iota in Hb. rewrite <- Hb. apply H.
    + intro Hb.
      apply (f_equal (fun r => match r with Ok (_, b) => b | Raise _ => "" end)) in Hb.
      cbv beta iota in Hb. rewrite <- Hb. apply H.
Qed.

Lemma terms_win_over_season_witness :
  term_str both_terms_listing = Ok (VStr "Summer 2026, Fall 2026")
  /\ get both_terms_listing "season" = VStr "Fall".
Proof.
  split; [|reflexivity].
  apply (terms_win_over_season scenario_runtime both_terms_listing
           "Summer 2026" ["Fall 2026"]).
  reflexivity.
Defined.

(** ** The main block *)


Section Main.

Variable rt : runtime.
Variable w : world.




End Main.


